(** * FastAPI assignments: a shallow embedding and its verified properties

    The repository holds three small services:
    - assignment 1: registration and login over a relational store;
    - assignment 2: a weather proxy with an in-memory TTL cache and a
      per-address rate limiter;
    - assignment 3: a blog with posts, comments and ownership checks.

    Each service is embedded in a module of its own.  Python values are
    modelled as follows: [int] as [Z]; [str] as [string], each character
    standing for one code point below 256; instants returned by
    [time.time()] as exact rationals [Q] (the only arithmetic on them is
    the addition or subtraction of a small integer constant, whose
    floating-point rounding is not modelled); [dict]s used as maps as
    [gmap]; mutable module-level state as an explicit state that every
    operation takes and returns. *)

From Stdlib Require Import ZArith QArith String Ascii List Bool Lia Lqa.
From stdpp Require Import gmap strings list fin_maps pretty.
Import ListNotations.

Open Scope string_scope.
Open Scope list_scope.

(** ** Shared helpers *)

(** [a > b] on instants, as a boolean. *)
Definition Qgtb (a b : Q) : bool := negb (Qle_bool a b).

(** ** Python values

    The payloads the weather service receives, builds and caches are
    decoded JSON documents.  A number is an [int] or a [float]; both are
    kept as a rational.  A [dict] keeps its items in insertion order. *)
#[local] Set Warnings "-register-all".
Inductive json : Type :=
| JNull
| JBool (b : bool)
| JNum (q : Q)
| JStr (s : string)
| JList (l : list json)
| JObj (items : list (string * json)).

(** Exceptions the services raise or meet.  [RequestError] stands for
    [httpx.RequestError] and its subclasses (connection failures and the
    timeouts of the client among them), [HTTPStatusError] for
    [httpx.HTTPStatusError], which is not one of them. *)
Inductive exn : Type :=
| HTTPException (status_code : Z) (detail : string)
| RequestError
| HTTPStatusError
| JSONDecodeError
| KeyError
| IndexError
| TypeError
| AttributeError
| ValueError (msg : string)
| RequestValidationError
| IntegrityError
| PendingRollbackError
| InvalidRequestError.

(** The outcome of a computation that may raise. *)
Inductive result (A : Type) : Type :=
| Return (a : A)
| Raise (e : exn).
Arguments Return {A} a.
Arguments Raise {A} e.

#[global] Instance result_ret : MRet result := fun A a => Return a.
#[global] Instance result_bind : MBind result := fun A B f m =>
  match m with
  | Return a => f a
  | Raise e => Raise e
  end.

(** The status line of the response: [ok] when the handler returns, the
    status of an [HTTPException], 422 when the request body does not
    validate, and 500 for any other exception, which no handler
    catches. *)
Definition status_of {A} (ok : Z) (r : result A) : Z :=
  match r with
  | Return _ => ok
  | Raise (HTTPException s _) => s
  | Raise RequestValidationError => 422
  | Raise _ => 500
  end.

(** A handler that works on a database session: it reads and updates a
    state [S] and may raise. *)
Definition M (S A : Type) : Type := S -> result A * S.

#[global] Instance M_ret {S} : MRet (M S) := fun A a s => (Return a, s).
#[global] Instance M_bind {S} : MBind (M S) := fun A B k m s =>
  match m s with
  | (Return a, s') => k a s'
  | (Raise e, s') => (Raise e, s')
  end.

Definition raise {S A} (e : exn) : M S A := fun s => (Raise e, s).

(** [try: body  except ...: handler]; [handler e] is [None] when no
    clause matches [e]. *)
Definition try_except {S A} (body : M S A) (handler : exn -> option (M S A))
  : M S A :=
  fun s =>
    match body s with
    | (Raise e, s') =>
        match handler e with
        | Some h => h s'
        | None => (Raise e, s')
        end
    | r => r
    end.

(** Truth value of an [Optional[str]]: [None] and the empty string are
    falsy. *)
Definition str_truthy (v : option string) : bool :=
  match v with
  | Some s => negb (String.eqb s "")
  | None => false
  end.

(** Is the exception an [HTTPException]? *)
Definition is_http (e : exn) : bool :=
  match e with
  | HTTPException _ _ => true
  | _ => false
  end.

(** An exception of the program itself, as opposed to an answer it has
    chosen or a failure of the HTTP client: one that, uncaught, ends in
    a 500. *)
Definition internal (e : exn) : Prop :=
  status_of 200 (@Raise unit e) = 500%Z /\ e <> RequestError.

(** Truth value of a Python object. *)
Definition truthy (v : json) : bool :=
  match v with
  | JNull => false
  | JBool b => b
  | JNum q => negb (Qeq_bool q 0)
  | JStr s => negb (String.eqb s "")
  | JList l => negb (Nat.eqb (length l) 0)
  | JObj items => negb (Nat.eqb (length items) 0)
  end.

Fixpoint assoc {A} (k : string) (items : list (string * A)) : option A :=
  match items with
  | [] => None
  | (k', v) :: rest => if String.eqb k k' then Some v else assoc k rest
  end.

(** [v[key]] for a string [key]. *)
Definition subscript (v : json) (key : string) : result json :=
  match v with
  | JObj items =>
      match assoc key items with
      | Some x => Return x
      | None => Raise KeyError
      end
  | _ => Raise TypeError
  end.

(** [v.get(key)]. *)
Definition py_get (v : json) (key : string) : result json :=
  match v with
  | JObj items => Return (default JNull (assoc key items))
  | _ => Raise AttributeError
  end.

(** [v[i]] for an index [i >= 0]. *)
Definition index (v : json) (i : nat) : result json :=
  match v with
  | JList l =>
      match nth_error l i with
      | Some x => Return x
      | None => Raise IndexError
      end
  | JStr s =>
      match String.get i s with
      | Some c => Return (JStr (String c EmptyString))
      | None => Raise IndexError
      end
  | JObj _ => Raise KeyError
  | _ => Raise TypeError
  end.

(** [len(v)]. *)
Definition py_len (v : json) : result nat :=
  match v with
  | JList l => Return (length l)
  | JStr s => Return (String.length s)
  | JObj items => Return (length items)
  | _ => Raise TypeError
  end.

(** [str.lower] on the characters below 256: the letters A-Z, and the
    Latin-1 capitals from 192 to 222 except the multiplication sign. *)
Definition py_lower_char (c : ascii) : ascii :=
  let n := N_of_ascii c in
  if ((65 <=? n) && (n <=? 90) ||
      (192 <=? n) && (n <=? 222) && negb (n =? 215))%N
  then ascii_of_N (n + 32)
  else c.

Fixpoint py_lower (s : string) : string :=
  match s with
  | EmptyString => EmptyString
  | String c rest => String (py_lower_char c) (py_lower rest)
  end.

(** ** Database sessions

    Both database services work through a session of the object
    mapper.  The session is the same for both; what differs is the
    tables [T], the changes [C] a handler can register, and the rows [R]
    a flush reports back. *)
Module Orm.

Section Session.

Variables T C R : Type.

(** [stored]: the committed content.  [pending]: what [add], [delete]
    and attribute assignments have registered since the last flush.
    [persisted]: the rows the last flush inserted, which is where a new
    object finds its key.  [failed]: a flush has failed and the session
    refuses work until [rollback]. *)
Record Session : Type := {
  stored : T;
  pending : list C;
  persisted : list R;
  failed : bool
}.

(** One change applied to the tables; it raises when the tables refuse
    it. *)
Variable apply_change : C -> T -> result (T * list R).

Definition open_session (d : T) : Session :=
  {| stored := d; pending := []; persisted := []; failed := false |}.

(** The flush: the pending changes, in order. *)
Fixpoint flush (cs : list C) (d : T) : result (T * list R) :=
  match cs with
  | [] => Return (d, [])
  | c :: rest =>
      match apply_change c d with
      | Raise e => Raise e
      | Return (d1, rows1) =>
          match flush rest d1 with
          | Raise e => Raise e
          | Return (d2, rows2) => Return (d2, rows1 ++ rows2)
          end
      end
  end.

(** Every operation on a session that has failed raises. *)
Definition active {A} (op : M Session A) : M Session A :=
  fun s => if failed s then (Raise PendingRollbackError, s) else op s.

(** [db.add(obj)], [db.delete(obj)], and the assignment to an attribute
    of a loaded object: the change is registered. *)
Definition register_change (c : C) : M Session unit :=
  fun s => (Return tt,
            {| stored := stored s; pending := pending s ++ [c];
               persisted := persisted s; failed := failed s |}).

Definition add (c : C) : M Session unit := register_change c.
Definition delete (c : C) : M Session unit := register_change c.

(** [db.commit()].  When the flush fails the transaction is undone, the
    pending objects are dropped and the session is marked. *)
Definition commit : M Session unit :=
  active (fun s =>
    match flush (pending s) (stored s) with
    | Return (d, rows) =>
        (Return tt,
         {| stored := d; pending := []; persisted := rows; failed := false |})
    | Raise e =>
        (Raise e,
         {| stored := stored s; pending := []; persisted := persisted s;
            failed := true |})
    end).

(** [db.rollback()]. *)
Definition rollback : M Session unit :=
  fun s => (Return tt,
            {| stored := stored s; pending := []; persisted := persisted s;
               failed := false |}).

(** [db.query(...).filter(...).first()] and its like: the first row of
    [table] that passes [p]. *)
Definition query_first {A} (table : T -> list A) (p : A -> bool)
  : M Session (option A) :=
  active (fun s => (Return (List.find p (table (stored s))), s)).

(** [db.refresh(obj)] for an object the last flush inserted. *)
Definition refresh_new {A} (pick : R -> option A) : M Session A :=
  active (fun s =>
    match List.find (fun r => bool_decide (is_Some (pick r))) (persisted s) with
    | Some r =>
        match pick r with
        | Some a => (Return a, s)
        | None => (Raise InvalidRequestError, s)
        end
    | None => (Raise InvalidRequestError, s)
    end).

End Session.

Arguments stored {T C R} _.
Arguments pending {T C R} _.
Arguments persisted {T C R} _.
Arguments failed {T C R} _.
Arguments open_session {T C R} d.
Arguments flush {T C R} apply_change cs d.
Arguments active {T C R A} op.
Arguments register_change {T C R} c.
Arguments add {T C R} c.
Arguments delete {T C R} c.
Arguments commit {T C R} apply_change.
Arguments rollback {T C R}.
Arguments query_first {T C R A} table p.
Arguments refresh_new {T C R A} pick.

End Orm.

(** * Assignment 2: weather proxy *)

Module Weather.

Definition OPEN_METEO_GEO_URL : string :=
  "https://geocoding-api.open-meteo.com/v1/search".
Definition OPEN_METEO_WEATHER_URL : string :=
  "https://api.open-meteo.com/v1/forecast".
Definition CACHE_TTL_SECONDS : Q := 600.

(** ** Weather codes (main.py, lines 21-37) *)

Definition WMO_CODES : list (Z * string) :=
  [ (0, "Clear sky");
    (1, "Mainly clear"); (2, "Partly cloudy"); (3, "Overcast");
    (45, "Fog"); (48, "Depositing rime fog");
    (51, "Drizzle: Light"); (53, "Drizzle: Moderate"); (55, "Drizzle: Dense");
    (61, "Rain: Slight"); (63, "Rain: Moderate"); (65, "Rain: Heavy");
    (71, "Snow: Slight"); (73, "Snow: Moderate"); (75, "Snow: Heavy");
    (77, "Snow grains");
    (80, "Rain showers: Slight"); (81, "Rain showers: Moderate");
    (82, "Rain showers: Violent");
    (95, "Thunderstorm: Slight or Moderate");
    (96, "Thunderstorm with slight hail");
    (99, "Thunderstorm with heavy hail") ]%Z.

(** [WMO_CODES.get(code, "Unknown")] for a number [q]: the entry whose
    key equals [q], an integer key being equal to the float of the same
    value. *)
Fixpoint wmo_lookup (q : Q) (codes : list (Z * string)) : string :=
  match codes with
  | [] => "Unknown"
  | (k, d) :: rest => if Qeq_bool q (inject_Z k) then d else wmo_lookup q rest
  end.

(** [get_weather_desc].  [True] and [False] are the keys 1 and 0; a list
    or a dict is not hashable and makes the lookup raise. *)
Definition get_weather_desc (code : json) : result string :=
  match code with
  | JNum q => Return (wmo_lookup q WMO_CODES)
  | JBool b => Return (wmo_lookup (if b then 1 else 0) WMO_CODES)
  | JNull | JStr _ => Return "Unknown"
  | JList _ | JObj _ => Raise TypeError
  end.

(** ** In-memory cache (main.py, lines 39-82) *)

(** A stored entry, the dict [{'data': ..., 'expiry': ...}] that [set]
    builds.  It has two keys, so it is never falsy: the test
    [if not entry] of line 48 succeeds exactly when the key is absent. *)
Record entry : Type := { data : json; expiry : Q }.

Record WeatherCache : Type := {
  store : gmap string entry;
  hits : Z;
  misses : Z
}.

(** [WeatherCache.__init__]. *)
Definition new_cache : WeatherCache :=
  {| store := ∅; hits := 0; misses := 0 |}.

(** [WeatherCache.get]; [now] is the value of [time.time()] at line 52.
    [None] is Python's [None], the miss. *)
Definition get (now : Q) (key : string) (self : WeatherCache)
  : option json * WeatherCache :=
  match store self !! key with
  | None =>
      (None, {| store := store self; hits := hits self;
                misses := misses self + 1 |})
  | Some e =>
      if Qgtb now (expiry e)
      then (None, {| store := delete key (store self); hits := hits self;
                     misses := misses self + 1 |})
      else (Some (data e), {| store := store self; hits := hits self + 1;
                              misses := misses self |})
  end.

(** [WeatherCache.set]; [now] is the value of [time.time()] at line 65. *)
Definition set (now : Q) (key : string) (d : json) (self : WeatherCache)
  : WeatherCache :=
  {| store := <[key := {| data := d; expiry := now + CACHE_TTL_SECONDS |}]>
                (store self);
     hits := hits self; misses := misses self |}.

Definition clear (self : WeatherCache) : WeatherCache :=
  {| store := ∅; hits := 0; misses := 0 |}.

Record stats : Type := {
  cache_hits : Z;
  cache_misses : Z;
  cached_items_count : nat
}.

Definition get_stats (self : WeatherCache) : stats :=
  {| cache_hits := hits self; cache_misses := misses self;
     cached_items_count := size (store self) |}.

(** ** The upstream service

    What [client.get(url, params=...)] comes to.  [NoReply]: the call
    raises [httpx.RequestError], the connection failed or the client's
    timeout of 5 seconds ran out.  [Reply is_error body]: a response
    arrived; [is_error] tells whether [raise_for_status] raises for its
    status, and [body] is the decoded document, [None] when the body is
    not JSON. *)
Inductive reply : Type :=
| NoReply
| Reply (is_error : bool) (body : option json).

Definition http_client : Type := string -> list (string * json) -> reply.

Definition client_get (client : http_client) (url : string)
    (params : list (string * json)) : result reply :=
  match client url params with
  | NoReply => Raise RequestError
  | r => Return r
  end.

Definition raise_for_status (response : reply) : result unit :=
  match response with
  | Reply true _ => Raise HTTPStatusError
  | _ => Return tt
  end.

Definition response_json (response : reply) : result json :=
  match response with
  | Reply _ (Some d) => Return d
  | _ => Raise JSONDecodeError
  end.

(** ** Helper (main.py, lines 130-149) *)

Definition get_coordinates (client : http_client) (city : string)
  : result json :=
  let body : result json :=
    response ← client_get client OPEN_METEO_GEO_URL
                 [("name", JStr city); ("count", JNum 1);
                  ("language", JStr "en"); ("format", JStr "json")];
    _ ← raise_for_status response;
    d ← response_json response;
    results ← py_get d "results";
    if negb (truthy results)
    then Raise (HTTPException 404 ("City '" ++ city ++ "' not found.")%string)
    else
      results ← subscript d "results";
      index results 0 in
  match body with
  | Raise HTTPStatusError =>
      Raise (HTTPException 503 "Weather service unavailable")
  | Raise RequestError =>
      Raise (HTTPException 503 "Weather service unavailable")
  | r => r
  end.

(** ** Endpoints (main.py, lines 153-267) *)

(** [if cached_data:] on what [get] returned. *)
Definition cached_truthy (cached_data : option json) : bool :=
  match cached_data with
  | Some d => truthy d
  | None => false
  end.

(** [GET /weather/{city}].  [t_get] and [t_set] are the instants at
    which the cache is read and, after the upstream calls, written. *)
Definition get_current_weather (client : http_client) (t_get t_set : Q)
    (city : string) (weather_cache : WeatherCache)
  : result json * WeatherCache :=
  let cache_key := ("current_" ++ py_lower city)%string in
  let '(cached_data, cache1) := get t_get cache_key weather_cache in
  if cached_truthy cached_data then (Return (default JNull cached_data), cache1)
  else
    let located : result (json * json * json * json) :=
      location ← get_coordinates client city;
      lat ← subscript location "latitude";
      lon ← subscript location "longitude";
      city_name_resolved ← subscript location "name";
      mret (location, lat, lon, city_name_resolved) in
    match located with
    | Raise e => (Raise e, cache1)
    | Return (location, lat, lon, city_name_resolved) =>
        let body : result json :=
          response ← client_get client OPEN_METEO_WEATHER_URL
                       [("latitude", lat); ("longitude", lon);
                        ("current", JStr "temperature_2m,relative_humidity_2m,weather_code,wind_speed_10m");
                        ("timezone", JStr "auto")];
          _ ← raise_for_status response;
          d ← response_json response;
          current ← subscript d "current";
          country ← py_get location "country";
          temperature ← subscript current "temperature_2m";
          humidity ← subscript current "relative_humidity_2m";
          wind_speed ← subscript current "wind_speed_10m";
          code ← subscript current "weather_code";
          condition ← get_weather_desc code;
          timestamp ← subscript current "time";
          mret (JObj [("city", city_name_resolved);
                      ("country", country);
                      ("temperature", temperature);
                      ("unit", JStr "Celsius");
                      ("humidity", humidity);
                      ("wind_speed", wind_speed);
                      ("condition", JStr condition);
                      ("timestamp", timestamp)]) in
        match body with
        | Return r => (Return r, set t_set cache_key r cache1)
        | Raise RequestError =>
            (Raise (HTTPException 503
                      "Weather service unavailable (Connection Error)"),
             cache1)
        | Raise _ =>
            (Raise (HTTPException 500 "Internal Server Error"), cache1)
        end
    end.

(** The loop of lines 247-254: the rows for the indices [i], [i + 1],
    ..., [i + n - 1]. *)
Fixpoint forecast_rows (daily : json) (n i : nat) : result (list json) :=
  match n with
  | O => mret []
  | S n' =>
      times ← subscript daily "time";
      date ← index times i;
      maxs ← subscript daily "temperature_2m_max";
      max_temp ← index maxs i;
      mins ← subscript daily "temperature_2m_min";
      min_temp ← index mins i;
      codes ← subscript daily "weather_code";
      code ← index codes i;
      condition ← get_weather_desc code;
      sums ← subscript daily "precipitation_sum";
      precipitation_mm ← index sums i;
      rest ← forecast_rows daily n' (S i);
      mret (JObj [("date", date);
                  ("max_temp", max_temp);
                  ("min_temp", min_temp);
                  ("condition", JStr condition);
                  ("precipitation_mm", precipitation_mm)] :: rest)
  end.

(** [GET /weather/forecast/{city}]. *)
Definition get_weather_forecast (client : http_client) (t_get t_set : Q)
    (city : string) (weather_cache : WeatherCache)
  : result json * WeatherCache :=
  let cache_key := ("forecast_" ++ py_lower city)%string in
  let '(cached_data, cache1) := get t_get cache_key weather_cache in
  if cached_truthy cached_data then (Return (default JNull cached_data), cache1)
  else
    let located : result (json * json * json) :=
      location ← get_coordinates client city;
      lat ← subscript location "latitude";
      lon ← subscript location "longitude";
      mret (location, lat, lon) in
    match located with
    | Raise e => (Raise e, cache1)
    | Return (location, lat, lon) =>
        let body : result json :=
          response ← client_get client OPEN_METEO_WEATHER_URL
                       [("latitude", lat); ("longitude", lon);
                        ("daily", JStr "temperature_2m_max,temperature_2m_min,weather_code,precipitation_sum");
                        ("forecast_days", JNum 5);
                        ("timezone", JStr "auto")];
          _ ← raise_for_status response;
          d ← response_json response;
          daily ← subscript d "daily";
          times ← subscript daily "time";
          n ← py_len times;
          forecast_list ← forecast_rows daily n 0;
          name ← subscript location "name";
          country ← py_get location "country";
          mret (JObj [("city", name);
                      ("country", country);
                      ("forecast", JList forecast_list)]) in
        match body with
        | Return r => (Return r, set t_set cache_key r cache1)
        | Raise RequestError =>
            (Raise (HTTPException 503 "Weather service unavailable"), cache1)
        | Raise e => (Raise e, cache1)
        end
    end.

(** [GET /weather/cache-status] and [DELETE /weather/cache]. *)
Definition get_cache_status (weather_cache : WeatherCache) : stats :=
  get_stats weather_cache.

Definition invalidate_cache (weather_cache : WeatherCache)
  : json * WeatherCache :=
  (JObj [("message", JStr "Cache invalidated successfully")],
   clear weather_cache).

(** Upstream services for concrete runs.  Geocoding knows Paris and
    nothing else. *)
Definition paris_location : json :=
  JObj [("name", JStr "Paris"); ("latitude", JNum 48.85);
        ("longitude", JNum 2.35); ("country", JStr "France")].

Definition geocoding (params : list (string * json)) : reply :=
  match assoc "name" params with
  | Some (JStr city) =>
      if String.eqb (py_lower city) "paris"
      then Reply false (Some (JObj [("results", JList [paris_location])]))
      else Reply false (Some (JObj [("generationtime_ms", JNum 0.5)]))
  | _ => Reply true None
  end.

Definition paris_current : json :=
  JObj [("current",
         JObj [("time", JStr "2024-05-01T12:00"); ("temperature_2m", JNum 18.5);
               ("relative_humidity_2m", JNum 60); ("weather_code", JNum 3);
               ("wind_speed_10m", JNum 12.4)])].

(** Both services answer. *)
Definition healthy : http_client := fun url params =>
  if String.eqb url OPEN_METEO_GEO_URL then geocoding params
  else Reply false (Some paris_current).

(** Geocoding answers; the forecast service answers with an error
    status (a 500 page, say). *)
Definition forecast_down : http_client := fun url params =>
  if String.eqb url OPEN_METEO_GEO_URL then geocoding params
  else Reply true None.

(** Geocoding answers with an error status. *)
Definition geocoding_down : http_client := fun url params =>
  Reply true None.

(** Geocoding answers; the call to the forecast service times out. *)
Definition forecast_timeout : http_client := fun url params =>
  if String.eqb url OPEN_METEO_GEO_URL then geocoding params
  else NoReply.

(** A cache holding one entry, stored at instant 1000 (so that it
    expires at 1600), used to exercise the cache on concrete input. *)
Definition paris_payload : json :=
  JObj [("city", JStr "Paris"); ("unit", JStr "Celsius")].

Definition paris_cache : WeatherCache :=
  set 1000 "current_paris" paris_payload new_cache.

(** ** Rate limiter (main.py, lines 84-126) *)

Definition RATE_LIMIT_MAX_REQUESTS : nat := 10.
Definition RATE_LIMIT_WINDOW : Q := 60.

(** What the middleware does with a request: [Deny] is the 429 response
    built at lines 118-121, [Allow] is the hand-over to [call_next]. *)
Inductive verdict : Set := Allow | Deny.

(** [rate_limit_store[client_ip]]; every read in [rate_limiter] comes
    after lines 106-107 have made the key present. *)
Definition getitem (st : gmap string (list Q)) (k : string) : list Q :=
  default [] (st !! k).

(** The instants that survive the filter of lines 110-113. *)
Definition recent (current_time : Q) (l : list Q) : list Q :=
  List.filter (fun t => Qgtb t (current_time - RATE_LIMIT_WINDOW)) l.

Definition rate_limiter (client_ip : string) (current_time : Q)
    (rate_limit_store : gmap string (list Q))
  : verdict * gmap string (list Q) :=
  let s0 :=
    match rate_limit_store !! client_ip with
    | None => <[client_ip := []]> rate_limit_store
    | Some _ => rate_limit_store
    end in
  let s1 := <[client_ip := recent current_time (getitem s0 client_ip)]> s0 in
  if (RATE_LIMIT_MAX_REQUESTS <=? length (getitem s1 client_ip))%nat
  then (Deny, s1)
  else (Allow,
        <[client_ip := (getitem s1 client_ip ++ [current_time])%list]> s1).

(** A sequence of requests, each with the address it comes from and the
    instant [time.time()] returns for it, served one after the other. *)
Fixpoint serve_all (reqs : list (string * Q)) (st : gmap string (list Q))
  : list verdict * gmap string (list Q) :=
  match reqs with
  | [] => ([], st)
  | (ip, t) :: rest =>
      let '(v, st1) := rate_limiter ip t st in
      let '(vs, st2) := serve_all rest st1 in
      (v :: vs, st2)
  end.

(** Requests of one client. *)
Definition serve (client_ip : string) (ts : list Q)
    (st : gmap string (list Q)) : list verdict * gmap string (list Q) :=
  serve_all (List.map (fun t => (client_ip, t)) ts) st.

(** The store of a freshly started process (line 86). *)
Definition rate_limit_store0 : gmap string (list Q) := ∅.

(** All instants of [ts] lie in the closed interval [[a, a + d]]. *)
Definition within (a d : Q) (ts : list Q) : Prop :=
  Forall (fun t => a <= t /\ t <= a + d)%Q ts.

(** Every instant of [l] is at or before [now - W]: the window has fully
    elapsed for all of them. *)
Definition elapsed (now : Q) (l : list Q) : Prop :=
  Forall (fun t => t <= now - RATE_LIMIT_WINDOW)%Q l.

(** The verdicts of [n] requests in a row when [used] instants of the
    client are inside the window and none leaves it meanwhile: the
    remaining quota is allowed, the rest is denied. *)
Definition burst_verdicts (used n : nat) : list verdict :=
  (repeat Allow (Nat.min n (RATE_LIMIT_MAX_REQUESTS - used)) ++
   repeat Deny (n - (RATE_LIMIT_MAX_REQUESTS - used)))%list.

(** The parameters of the geocoding call for [city] (lines 133-136). *)
Definition geo_params (city : string) : list (string * json) :=
  [("name", JStr city); ("count", JNum 1);
   ("language", JStr "en"); ("format", JStr "json")].

(** The cache keys of the two endpoints (lines 167 and 219). *)
Definition current_key (city : string) : string :=
  ("current_" ++ py_lower city)%string.
Definition forecast_key (city : string) : string :=
  ("forecast_" ++ py_lower city)%string.

(** A row of the forecast, as line 248 builds it. *)
Definition forecast_row (row : json) : Prop :=
  exists date max_temp min_temp condition precipitation_mm,
    row = JObj [("date", date); ("max_temp", max_temp);
                ("min_temp", min_temp); ("condition", JStr condition);
                ("precipitation_mm", precipitation_mm)].

(** The [daily] part of a two-day forecast. *)
Definition two_days : json :=
  JObj [("time", JList [JStr "2024-05-01"; JStr "2024-05-02"]);
        ("temperature_2m_max", JList [JNum 19.5; JNum 21]);
        ("temperature_2m_min", JList [JNum 9; JNum 11.5]);
        ("weather_code", JList [JNum 3; JNum 61]);
        ("precipitation_sum", JList [JNum 0; JNum 2.5])].


(** ** Runs of the cache and of the limiter *)

(** A call on the cache, with the instant [time.time()] returns in it. *)
Inductive cache_op : Type :=
| OpGet (now : Q) (key : string)
| OpSet (now : Q) (key : string) (d : json)
| OpClear.

Definition cache_step (op : cache_op) (c : WeatherCache) : WeatherCache :=
  match op with
  | OpGet now key => snd (get now key c)
  | OpSet now key d => set now key d c
  | OpClear => clear c
  end.

Definition cache_run (ops : list cache_op) (c : WeatherCache) : WeatherCache :=
  fold_left (fun c op => cache_step op c) ops c.

(** The reads among [ops] that come after the last [clear]. *)
Fixpoint reads_since_clear (ops : list cache_op) (before : nat) : nat :=
  match ops with
  | [] => before
  | OpGet _ _ :: rest => reads_since_clear rest (S before)
  | OpSet _ _ _ :: rest => reads_since_clear rest before
  | OpClear :: rest => reads_since_clear rest 0
  end.

(** The writes among [ops] that come after the last [clear]. *)
Fixpoint writes_since_clear (ops : list cache_op) (before : nat) : nat :=
  match ops with
  | [] => before
  | OpGet _ _ :: rest => writes_since_clear rest before
  | OpSet _ _ _ :: rest => writes_since_clear rest (S before)
  | OpClear :: rest => writes_since_clear rest 0
  end.

(** The instants of the requests that were let through. *)
Fixpoint allowed (ts : list Q) (vs : list verdict) : list Q :=
  match ts, vs with
  | t :: ts', Allow :: vs' => t :: allowed ts' vs'
  | _ :: ts', Deny :: vs' => allowed ts' vs'
  | _, _ => []
  end.

(** The instants of [ts] do not go back in time, starting from [lo]. *)
Fixpoint nondecreasing (lo : Q) (ts : list Q) : Prop :=
  match ts with
  | [] => True
  | t :: rest => (lo <= t)%Q /\ nondecreasing t rest
  end.

(** The instants at which client [ip] asks, and the verdicts it gets,
    among interleaved requests of several clients. *)
Definition own (ip : string) (reqs : list (string * Q)) : list Q :=
  List.map snd (List.filter (fun r => String.eqb (fst r) ip) reqs).

Fixpoint own_verdicts (ip : string) (reqs : list (string * Q))
    (vs : list verdict) : list verdict :=
  match reqs, vs with
  | (c, _) :: reqs', v :: vs' =>
      if String.eqb c ip then v :: own_verdicts ip reqs' vs'
      else own_verdicts ip reqs' vs'
  | _, _ => []
  end.

End Weather.


(** * Assignment 3: blog *)

Module Blog.
Import Orm.

(** ** Rows

    The columns are those the handlers and the response schemas name.
    [created_at] and [updated_at] are filled in by the store and are
    neither read nor written by any handler; they are left out. *)
Module User.
Record t : Type := {
  id : Z;
  username : string;
  email : string;
  hashed_password : string
}.
End User.

Module Post.
Record t : Type := {
  id : Z;
  title : string;
  content : string;
  author_id : Z
}.
End Post.

Module Comment.
Record t : Type := {
  id : Z;
  text : string;
  post_id : Z;
  author_id : Z
}.
End Comment.

(** The content of the database. *)
Record tables : Type := {
  users : list User.t;
  posts : list Post.t;
  comments : list Comment.t
}.

(** ** Request bodies (schemas.py) *)

Record UserCreate : Type := {
  uc_username : string;
  uc_email : string;
  uc_password : string
}.

Record PostCreate : Type := { pc_title : string; pc_content : string }.

Record PostUpdate : Type := {
  pu_title : option string;
  pu_content : option string
}.

Record CommentCreate : Type := { cc_text : string }.

(** ** Changes and rows

    A change the session holds until the next flush.  A new object has
    no key yet. *)
Inductive change : Type :=
| AddUser (username email hashed_password : string)
| AddPost (title content : string) (author_id : Z)
| AddComment (text : string) (post_id author_id : Z)
| UpdatePost (p : Post.t)
| DeletePost (p : Post.t)
| DeleteComment (c : Comment.t).

Inductive row : Type :=
| UserRow (u : User.t)
| PostRow (p : Post.t)
| CommentRow (c : Comment.t).

(** ** The parts of SQL the queries use

    As SQLite, the engine of the test suite, has them. *)

(** [lower()]: the letters A-Z only. *)
Definition sql_lower_char (c : ascii) : ascii :=
  let n := N_of_ascii c in
  if ((65 <=? n) && (n <=? 90))%N then ascii_of_N (n + 32) else c.

Fixpoint sql_lower (s : string) : string :=
  match s with
  | EmptyString => EmptyString
  | String c rest => String (sql_lower_char c) (sql_lower rest)
  end.

(** [text LIKE pattern]: in the pattern a percent sign stands for any
    run of characters, an underscore for any one character. *)
Fixpoint like (pattern : string) : string -> bool :=
  match pattern with
  | EmptyString =>
      fun text => match text with EmptyString => true | _ => false end
  | String c pattern' =>
      if Ascii.eqb c "%" then
        fix any_run (text : string) : bool :=
          like pattern' text ||
          match text with
          | EmptyString => false
          | String _ text' => any_run text'
          end
      else if Ascii.eqb c "_" then
        fun text =>
          match text with
          | EmptyString => false
          | String _ text' => like pattern' text'
          end
      else
        fun text =>
          match text with
          | EmptyString => false
          | String d text' => Ascii.eqb c d && like pattern' text'
          end
  end.

(** [column.ilike(pattern)], which is rendered as
    [lower(column) LIKE lower(pattern)]. *)
Definition ilike (column pattern : string) : bool :=
  like (sql_lower pattern) (sql_lower column).

(** The spec's wording of the search: the title contains the search
    string as a substring, letter case aside. *)
Fixpoint prefixb (s t : string) : bool :=
  match s, t with
  | EmptyString, _ => true
  | String _ _, EmptyString => false
  | String c s', String d t' => Ascii.eqb c d && prefixb s' t'
  end.

Fixpoint infixb (s t : string) : bool :=
  prefixb s t ||
  match t with
  | EmptyString => false
  | String _ t' => infixb s t'
  end.

Definition icontains (needle text : string) : bool :=
  infixb (sql_lower needle) (sql_lower text).



(** [OFFSET n]: a negative [n] counts as zero. *)
Definition offset {A} (n : Z) (rows : list A) : list A :=
  skipn (Z.to_nat n) rows.

(** [LIMIT n]: a negative [n] is no limit. *)
Definition limit {A} (n : Z) (rows : list A) : list A :=
  if (n <? 0)%Z then rows else firstn (Z.to_nat n) rows.

(** The key of the next row: one more than the largest key in use. *)
Definition next_id (ids : list Z) : Z := (fold_right Z.max 0 ids + 1)%Z.

Section Store.

(** The uniqueness constraints of the [users] table are declared in
    models.py, which is not available: they are parameters.  So is the
    password hashing of auth.py. *)
Variable unique_username : bool.
Variable unique_email : bool.
Variable get_password_hash : string -> string.

Definition violates_unique (d : tables) (username email : string) : bool :=
  (unique_username &&
     existsb (fun u => String.eqb (User.username u) username) (users d))
  || (unique_email &&
        existsb (fun u => String.eqb (User.email u) email) (users d)).

(** Modelled from the spec: the cascade from a post to its comments is
    declared in models.py, which is missing.  Deleting a post deletes
    every comment that refers to it. *)
Definition cascade (p : Post.t) (cs : list Comment.t) : list Comment.t :=
  List.filter (fun c => negb (Comment.post_id c =? Post.id p)%Z) cs.

(** One change applied to the tables.  [IntegrityError] when a
    uniqueness constraint is violated. *)
Definition apply_change (c : change) (d : tables)
  : result (tables * list row) :=
  match c with
  | AddUser username email hashed_password =>
      if violates_unique d username email then Raise IntegrityError
      else
        let u := {| User.id := next_id (List.map User.id (users d));
                    User.username := username; User.email := email;
                    User.hashed_password := hashed_password |} in
        Return ({| users := users d ++ [u]; posts := posts d;
                   comments := comments d |}, [UserRow u])
  | AddPost title content author_id =>
      let p := {| Post.id := next_id (List.map Post.id (posts d));
                  Post.title := title; Post.content := content;
                  Post.author_id := author_id |} in
      Return ({| users := users d; posts := posts d ++ [p];
                 comments := comments d |}, [PostRow p])
  | AddComment text post_id author_id =>
      let c := {| Comment.id := next_id (List.map Comment.id (comments d));
                  Comment.text := text; Comment.post_id := post_id;
                  Comment.author_id := author_id |} in
      Return ({| users := users d; posts := posts d;
                 comments := comments d ++ [c] |}, [CommentRow c])
  | UpdatePost p =>
      Return ({| users := users d;
                 posts := List.map (fun q => if (Post.id q =? Post.id p)%Z
                                             then p else q) (posts d);
                 comments := comments d |}, [])
  | DeletePost p =>
      Return ({| users := users d;
                 posts := List.filter
                            (fun q => negb (Post.id q =? Post.id p)%Z)
                            (posts d);
                 comments := cascade p (comments d) |}, [])
  | DeleteComment c =>
      Return ({| users := users d; posts := posts d;
                 comments := List.filter
                               (fun c' => negb (Comment.id c' =? Comment.id c)%Z)
                               (comments d) |}, [])
  end.

Definition as_user (r : row) : option User.t :=
  match r with UserRow u => Some u | _ => None end.
Definition as_post (r : row) : option Post.t :=
  match r with PostRow p => Some p | _ => None end.
Definition as_comment (r : row) : option Comment.t :=
  match r with CommentRow c => Some c | _ => None end.

(** A session on the blog's tables. *)
Definition Session : Type := Orm.Session tables change row.

Definition open_session (d : tables) : Session := Orm.open_session d.
Definition add : change -> M Session unit := Orm.add.
Definition delete : change -> M Session unit := Orm.delete.
Definition commit : M Session unit := Orm.commit apply_change.
Definition rollback : M Session unit := Orm.rollback.

(** [db.refresh(db_post)] for a post that a query has loaded. *)
Definition refresh_post (p : Post.t) : M Session Post.t :=
  active (fun s =>
    match List.find (fun q => (Post.id q =? Post.id p)%Z) (posts (stored s)) with
    | Some q => (Return q, s)
    | None => (Raise InvalidRequestError, s)
    end).

(** ** Handlers (main.py) *)

(** [POST /register], lines 14-29. *)
Definition register (user : UserCreate) : M Session User.t :=
  db_user ← query_first users
              (fun u => String.eqb (User.username u) (uc_username user));
  match db_user with
  | Some _ => raise (HTTPException 400 "Username already registered")
  | None =>
      try_except
        (let hashed_pwd := get_password_hash (uc_password user) in
         _ ← add (AddUser (uc_username user) (uc_email user) hashed_pwd);
         _ ← commit;
         refresh_new as_user)
        (fun e =>
           match e with
           | IntegrityError =>
               Some (_ ← rollback;
                     raise (HTTPException 400 "Email already registered"))
           | _ => None
           end)
  end.

(** [POST /posts], lines 41-51. *)
Definition create_post (post : PostCreate) (current_user : User.t)
  : M Session Post.t :=
  _ ← add (AddPost (pc_title post) (pc_content post) (User.id current_user));
  _ ← commit;
  refresh_new as_post.

(** [GET /posts], lines 53-64. *)
Definition get_posts (skip lim : Z) (search : option string)
  : M Session (list Post.t) :=
  active (fun s =>
    let query := posts (stored s) in
    let query :=
      if str_truthy search
      then List.filter
             (fun p => ilike (Post.title p)
                         ("%" ++ default "" search ++ "%")%string)
             query
      else query in
    (Return (limit lim (offset skip query)), s)).

(** [GET /posts/{post_id}], lines 66-71: the post and its comments. *)
Definition get_post (post_id : Z) : M Session (Post.t * list Comment.t) :=
  post ← query_first posts (fun p => (Post.id p =? post_id)%Z);
  match post with
  | None => raise (HTTPException 404 "Post not found")
  | Some post =>
      active (fun s =>
        (Return (post,
                 List.filter (fun c => (Comment.post_id c =? Post.id post)%Z)
                             (comments (stored s))), s))
  end.

(** [db_post.title = ...], [db_post.content = ...]. *)
Definition set_title (p : Post.t) (v : string) : M Session Post.t :=
  let p' := {| Post.id := Post.id p; Post.title := v;
               Post.content := Post.content p;
               Post.author_id := Post.author_id p |} in
  _ ← Orm.register_change (UpdatePost p'); mret p'.

Definition set_content (p : Post.t) (v : string) : M Session Post.t :=
  let p' := {| Post.id := Post.id p; Post.title := Post.title p;
               Post.content := v;
               Post.author_id := Post.author_id p |} in
  _ ← Orm.register_change (UpdatePost p'); mret p'.

(** [PUT /posts/{post_id}], lines 73-93. *)
Definition update_post (post_id : Z) (post_update : PostUpdate)
    (current_user : User.t) : M Session Post.t :=
  db_post ← query_first posts (fun p => (Post.id p =? post_id)%Z);
  match db_post with
  | None => raise (HTTPException 404 "Post not found")
  | Some db_post =>
      if negb (Post.author_id db_post =? User.id current_user)%Z
      then raise (HTTPException 403 "Not authorized to update this post")
      else
        db_post ← (if str_truthy (pu_title post_update)
                   then set_title db_post (default "" (pu_title post_update))
                   else mret db_post);
        db_post ← (if str_truthy (pu_content post_update)
                   then set_content db_post
                          (default "" (pu_content post_update))
                   else mret db_post);
        _ ← commit;
        refresh_post db_post
  end.

(** What an update by the owner is said to write: each of the two fields takes the
    value sent when that value is truthy, and keeps its own otherwise. *)
Definition updated (p : Post.t) (upd : PostUpdate) : Post.t :=
  {| Post.id := Post.id p;
     Post.title := if str_truthy (pu_title upd)
                   then default "" (pu_title upd) else Post.title p;
     Post.content := if str_truthy (pu_content upd)
                     then default "" (pu_content upd) else Post.content p;
     Post.author_id := Post.author_id p |}.

(** [DELETE /posts/{post_id}], lines 95-109. *)
Definition delete_post (post_id : Z) (current_user : User.t)
  : M Session unit :=
  db_post ← query_first posts (fun p => (Post.id p =? post_id)%Z);
  match db_post with
  | None => raise (HTTPException 404 "Post not found")
  | Some db_post =>
      if negb (Post.author_id db_post =? User.id current_user)%Z
      then raise (HTTPException 403 "Not authorized to delete this post")
      else
        _ ← delete (DeletePost db_post);
        commit
  end.

(** [POST /posts/{post_id}/comments], lines 112-131. *)
Definition create_comment (post_id : Z) (comment : CommentCreate)
    (current_user : User.t) : M Session Comment.t :=
  post ← query_first posts (fun p => (Post.id p =? post_id)%Z);
  match post with
  | None => raise (HTTPException 404 "Post not found")
  | Some _ =>
      _ ← add (AddComment (cc_text comment) post_id (User.id current_user));
      _ ← commit;
      refresh_new as_comment
  end.

(** [GET /posts/{post_id}/comments], lines 133-136. *)
Definition get_comments (post_id : Z) : M Session (list Comment.t) :=
  active (fun s =>
    (Return (List.filter (fun c => (Comment.post_id c =? post_id)%Z)
                         (comments (stored s))), s)).

(** [DELETE /comments/{comment_id}], lines 138-152. *)
Definition delete_comment (comment_id : Z) (current_user : User.t)
  : M Session unit :=
  comment ← query_first comments (fun c => (Comment.id c =? comment_id)%Z);
  match comment with
  | None => raise (HTTPException 404 "Comment not found")
  | Some comment =>
      if negb (Comment.author_id comment =? User.id current_user)%Z
      then raise (HTTPException 403 "Not authorized to delete this comment")
      else
        _ ← delete (DeleteComment comment);
        commit
  end.

End Store.

(** ** Concrete data *)

Definition no_tables : tables := {| users := []; posts := []; comments := [] |}.

Definition alice : User.t :=
  {| User.id := 1; User.username := "testuser";
     User.email := "test@example.com"; User.hashed_password := "$2b$12$aaaa" |}.

Definition bob : User.t :=
  {| User.id := 2; User.username := "user2";
     User.email := "user2@example.com"; User.hashed_password := "$2b$12$bbbb" |}.

Definition guide : Post.t :=
  {| Post.id := 1; Post.title := "FastAPI Guide"; Post.content := "A";
     Post.author_id := 1 |}.

Definition basics : Post.t :=
  {| Post.id := 2; Post.title := "Python Basics"; Post.content := "B";
     Post.author_id := 1 |}.

Definition nice : Comment.t :=
  {| Comment.id := 1; Comment.text := "Nice post!"; Comment.post_id := 1;
     Comment.author_id := 1 |}.

(** The registration the test suite sends with the password [pwd]. *)
Definition user_C : UserCreate :=
  {| uc_username := "user_C"; uc_email := "unique@email.com";
     uc_password := "pwd" |}.

(** Two users; two posts and a comment, all by the first user. *)
Definition blog : tables :=
  {| users := [alice; bob]; posts := [guide; basics]; comments := [nice] |}.

(** Fifteen posts, titled [Post 0] to [Post 14]. *)
Definition fifteen : tables :=
  {| users := [alice];
     posts := List.map (fun i => {| Post.id := Z.of_nat (S i);
                                    Post.title := ("Post " ++ pretty i)%string;
                                    Post.content := "Content";
                                    Post.author_id := 1 |}) (seq 0 15);
     comments := [] |}.

(** ** Signing in (main.py, lines 31-38) *)


Section Auth.

(** [auth.verify_password(plain, hashed)] and the token that
    [auth.create_access_token] issues for a subject belong to auth.py,
    which is not available: they are parameters. *)
Variable verify_password : string -> string -> bool.
Variable create_access_token : string -> string.


End Auth.

(** The comments of the post with key [post_id], in the order of the
    table. *)
Definition listing_of_comments (post_id : Z) (d : tables) : list Comment.t :=
  List.filter (fun c => (Comment.post_id c =? post_id)%Z) (comments d).


End Blog.

(** * Assignment 1: accounts *)

Module Accounts.
Import Orm.

(** ** Rows

    [is_active] and [created_at] are filled in by the store and are
    neither read nor written by any handler; they are left out. *)
Module User.
Record t : Type := {
  id : Z;
  email : string;
  username : string;
  hashed_password : string
}.
End User.

(** ** Request bodies (schemas.py) *)

Record UserCreate : Type := {
  uc_email : string;
  uc_username : string;
  uc_password : string
}.

Record UserUpdate : Type := {
  uu_username : option string;
  uu_email : option string
}.

(** [re.search(r"\d", v)]: among the characters below 256 the decimal
    digits are 0 to 9. *)
Definition is_digit (c : ascii) : bool :=
  let n := N_of_ascii c in ((48 <=? n) && (n <=? 57))%N.

Fixpoint has_digit (v : string) : bool :=
  match v with
  | EmptyString => false
  | String c rest => is_digit c || has_digit rest
  end.

(** [UserCreate.validate_password], lines 15-21. *)
Definition validate_password (v : string) : result string :=
  if (String.length v <? 8)%nat
  then Raise (ValueError "Password must be at least 8 characters long")
  else if negb (has_digit v)
  then Raise (ValueError "Password must contain at least one number")
  else Return v.

(** A string field of the request body. *)
Definition str_field (body : json) (name : string) : option string :=
  match body with
  | JObj items =>
      match assoc name items with
      | Some (JStr v) => Some v
      | _ => None
      end
  | _ => None
  end.

Definition returned {A} (r : result A) : option A :=
  match r with
  | Return a => Some a
  | Raise _ => None
  end.

Inductive change : Type :=
| AddUser (email username hashed_password : string)
| UpdateUser (u : User.t).

Definition Session : Type := Orm.Session (list User.t) change User.t.

Section Store.

(** The check of [EmailStr], which gives the address in its normal form
    or rejects it, belongs to the validation library; the uniqueness
    constraints of the table are declared in models.py and the password
    hashing in security.py, neither of which is available.  All four are
    parameters. *)
Variable validate_email : string -> option string.
Variable unique_email : bool.
Variable unique_username : bool.
Variable get_password_hash : string -> string.

(** The validation of the body of [POST /register] against
    [UserCreate]: every field is checked, and the request is refused
    when any check fails. *)
Definition UserCreate_validate (body : json) : result UserCreate :=
  match str_field body "email" ≫= validate_email,
        str_field body "username",
        str_field body "password" ≫= (fun v => returned (validate_password v))
  with
  | Some e, Some u, Some p =>
      Return {| uc_email := e; uc_username := u; uc_password := p |}
  | _, _, _ => Raise RequestValidationError
  end.

(** Does a row other than the one with key [self] hold this address, or
    this name, under a uniqueness constraint? *)
Definition violates_unique (self : option Z) (rows : list User.t)
    (email username : string) : bool :=
  existsb
    (fun u =>
       negb (bool_decide (self = Some (User.id u))) &&
       ((unique_email && String.eqb (User.email u) email) ||
        (unique_username && String.eqb (User.username u) username)))
    rows.

Definition apply_change (c : change) (rows : list User.t)
  : result (list User.t * list User.t) :=
  match c with
  | AddUser email username hashed_password =>
      if violates_unique None rows email username then Raise IntegrityError
      else
        let u := {| User.id := Blog.next_id (List.map User.id rows);
                    User.email := email; User.username := username;
                    User.hashed_password := hashed_password |} in
        Return (rows ++ [u], [u])
  | UpdateUser u =>
      if violates_unique (Some (User.id u)) rows (User.email u) (User.username u)
      then Raise IntegrityError
      else
        Return (List.map (fun v => if (User.id v =? User.id u)%Z then u else v)
                         rows, [])
  end.

Definition add : change -> M Session unit := Orm.add.
Definition commit : M Session unit := Orm.commit apply_change.

(** [db.refresh(current_user)]. *)
Definition refresh (u : User.t) : M Session User.t :=
  active (fun s =>
    match List.find (fun v => (User.id v =? User.id u)%Z) (stored s) with
    | Some v => (Return v, s)
    | None => (Raise InvalidRequestError, s)
    end).

(** [select(User).where(User.email == email)], then
    [result.scalars().first()]. *)
Definition select_by_email (email : string) : M Session (option User.t) :=
  query_first (fun rows => rows) (fun u => String.eqb (User.email u) email).

(** ** Handlers (main.py) *)

(** [POST /register], lines 20-38. *)
Definition register (user : UserCreate) : M Session User.t :=
  existing ← select_by_email (uc_email user);
  match existing with
  | Some _ => raise (HTTPException 400 "Email already registered")
  | None =>
      let hashed_pw := get_password_hash (uc_password user) in
      _ ← add (AddUser (uc_email user) (uc_username user) hashed_pw);
      _ ← commit;
      refresh_new Some
  end.

(** [current_user.email = ...], [current_user.username = ...]. *)
Definition set_email (u : User.t) (v : string) : M Session User.t :=
  let u' := {| User.id := User.id u; User.email := v;
               User.username := User.username u;
               User.hashed_password := User.hashed_password u |} in
  _ ← register_change (UpdateUser u'); mret u'.

Definition set_username (u : User.t) (v : string) : M Session User.t :=
  let u' := {| User.id := User.id u; User.email := User.email u;
               User.username := v;
               User.hashed_password := User.hashed_password u |} in
  _ ← register_change (UpdateUser u'); mret u'.

(** [PUT /users/me], lines 65-83. *)
Definition update_user_me (user_update : UserUpdate) (current_user : User.t)
  : M Session User.t :=
  current_user ←
    (if str_truthy (uu_email user_update) &&
        negb (String.eqb (default "" (uu_email user_update))
                         (User.email current_user))
     then
       taken ← select_by_email (default "" (uu_email user_update));
       match taken with
       | Some _ => raise (HTTPException 400 "Email already in use")
       | None => set_email current_user (default "" (uu_email user_update))
       end
     else mret current_user);
  current_user ←
    (if str_truthy (uu_username user_update)
     then set_username current_user (default "" (uu_username user_update))
     else mret current_user);
  _ ← commit;
  refresh current_user.

(** ** Requests

    [get_db] of database.py: the handler runs on a session of its own,
    which is closed when the request is over, whatever its outcome;
    what stays is the committed content. *)
Definition get_db {A} (handler : M Session A) (rows : list User.t)
  : result A * list User.t :=
  let '(r, s) := handler (open_session rows) in (r, stored s).

(** [POST /register] from the body on: the body is validated first and
    the handler runs only on a body that passes. *)
Definition post_register (body : json) (rows : list User.t)
  : result User.t * list User.t :=
  match UserCreate_validate body with
  | Return user => get_db (register user) rows
  | Raise e => (Raise e, rows)
  end.

End Store.

(** ** Concrete data *)

Definition carol : User.t :=
  {| User.id := 1; User.email := "carol@example.com";
     User.username := "carol"; User.hashed_password := "$2b$12$cccc" |}.

(** A stand-in for the check of [EmailStr]: one at-sign, with something
    on either side. *)
Fixpoint at_signs (s : string) : nat :=
  match s with
  | EmptyString => 0
  | String c rest => (if Ascii.eqb c "@" then 1 else 0) + at_signs rest
  end.

Definition simple_email (s : string) : option string :=
  match s with
  | EmptyString => None
  | String c rest =>
      if Ascii.eqb c "@" then None
      else if negb (Nat.eqb (at_signs s) 1) then None
      else if String.eqb (String.substring (String.length s - 1) 1 s) "@"
      then None
      else Some s
  end.

(** A second account that takes the first one's name, under another
    address. *)
Definition second_carol : UserCreate :=
  {| uc_email := "dave@example.com"; uc_username := "carol";
     uc_password := "s3cretpass" |}.

Definition register_body (email username password : string) : json :=
  JObj [("email", JStr email); ("username", JStr username);
        ("password", JStr password)].

End Accounts.
(** * Properties *)

Lemma Qgtb_true a b : Qgtb a b = true <-> (b < a)%Q.
Proof.
  unfold Qgtb. rewrite negb_true_iff.
  split; intros H.
  - apply Qnot_le_lt. intros Hle. apply Qle_bool_iff in Hle. congruence.
  - destruct (Qle_bool a b) eqn:E; [|reflexivity].
    apply Qle_bool_iff in E. exfalso. eapply Qlt_not_le; eauto.
Qed.

Lemma Qgtb_false a b : Qgtb a b = false <-> (a <= b)%Q.
Proof.
  unfold Qgtb. rewrite negb_false_iff. apply Qle_bool_iff.
Qed.

(** Replacing the rows that carry key [k] by a row with the same key
    leaves the first row with key [k] in place, now with the new
    content. *)
Lemma find_replace {A} (key : A -> Z) (k : Z) (a a' : A) (l : list A) :
  key a' = k ->
  List.find (fun q => (key q =? k)%Z) l = Some a ->
  List.find (fun q => (key q =? k)%Z)
            (List.map (fun q => if (key q =? k)%Z then a' else q) l)
    = Some a'.
Proof.
  intros Hk. induction l as [|q l IH]; [discriminate|].
  cbn [List.find List.map].
  destruct (Z.eqb_spec (key q) k) as [E|E].
  - intros _. cbn. rewrite Hk. by rewrite Z.eqb_refl.
  - intros H. cbn. apply Z.eqb_neq in E. rewrite E. auto.
Qed.

Module WeatherFacts.
Import Weather.

(** ** The cache *)

Lemma get_absent now key (c : WeatherCache) :
  store c !! key = None ->
  get now key c =
    (None, {| store := store c; hits := hits c; misses := misses c + 1 |}).
Proof. intros H. unfold get. by rewrite H. Qed.

Lemma get_expired now key (c : WeatherCache) e :
  store c !! key = Some e -> (expiry e < now)%Q ->
  get now key c =
    (None, {| store := delete key (store c); hits := hits c;
              misses := misses c + 1 |}).
Proof.
  intros H Hlt. unfold get. rewrite H.
  apply Qgtb_true in Hlt. by rewrite Hlt.
Qed.

Lemma get_live now key (c : WeatherCache) e :
  store c !! key = Some e -> (now <= expiry e)%Q ->
  get now key c =
    (Some (data e), {| store := store c; hits := hits c + 1;
                       misses := misses c |}).
Proof.
  intros H Hle. unfold get. rewrite H.
  apply Qgtb_false in Hle. by rewrite Hle.
Qed.

(** C3.  [get] returns the stored value exactly when the key has an
    entry and [now <= expiry]; an expired entry is removed and reported
    as a miss; an absent key is a miss; and every call adds one to
    exactly one of the two counters. *)
Theorem C3_cache_get_hit_or_miss :
  forall now key (c : WeatherCache),
    let r := fst (get now key c) in
    let c' := snd (get now key c) in
    (forall v, r = Some v <->
               exists e, store c !! key = Some e /\ (now <= expiry e)%Q /\
                         data e = v) /\
    (forall e, store c !! key = Some e -> (now <= expiry e)%Q ->
               store c' = store c /\
               hits c' = (hits c + 1)%Z /\ misses c' = misses c) /\
    (forall e, store c !! key = Some e -> ~ (now <= expiry e)%Q ->
               r = None /\ store c' = delete key (store c) /\
               store c' !! key = None /\
               hits c' = hits c /\ misses c' = (misses c + 1)%Z) /\
    (store c !! key = None ->
               r = None /\ store c' = store c /\
               hits c' = hits c /\ misses c' = (misses c + 1)%Z) /\
    ((hits c' = (hits c + 1)%Z /\ misses c' = misses c) \/
     (hits c' = hits c /\ misses c' = (misses c + 1)%Z)).
Proof.
  intros now key c r c'. subst r c'.
  destruct (store c !! key) as [e|] eqn:E.
  - destruct (Qlt_le_dec (expiry e) now) as [Hlt|Hle].
    + rewrite (get_expired now key c e E Hlt). cbn [fst snd store hits misses].
      split; [|split; [|split; [|split]]].
      * intros v. split; [discriminate|].
        intros (e' & He' & Hle & _). injection He' as <-.
        exfalso. eapply Qlt_not_le; eauto.
      * intros e' He' Hle. injection He' as <-.
        exfalso. eapply Qlt_not_le; eauto.
      * intros e' _ _. rewrite lookup_delete_eq. auto.
      * discriminate.
      * right. auto.
    + rewrite (get_live now key c e E Hle). cbn [fst snd store hits misses].
      split; [|split; [|split; [|split]]].
      * intros v. split.
        -- intros [= <-]. eauto.
        -- intros (e' & He' & _ & <-). by injection He' as <-.
      * auto.
      * intros e' He' Hn. injection He' as <-. contradiction.
      * discriminate.
      * left. auto.
  - rewrite (get_absent now key c E). cbn [fst snd store hits misses].
    split; [|split; [|split; [|split]]].
    + intros v. split; [discriminate|]. intros (e & He & _). discriminate.
    + discriminate.
    + discriminate.
    + auto.
    + right. auto.
Qed.

(** A read at instant 1200 of the entry that expires at 1600. *)
Lemma C3_cache_get_witness :
  fst (get 1200 "current_paris" paris_cache) = Some paris_payload.
Proof.
  apply (proj1 (C3_cache_get_hit_or_miss 1200%Q "current_paris" paris_cache)).
  exists {| data := paris_payload; expiry := 1000 + CACHE_TTL_SECONDS |}.
  split; [reflexivity|]. split; [|reflexivity].
  vm_compute. discriminate.
Defined.

(** C4.  Two reads in a row of a key whose entry has not expired return
    the same payload and add 2 to the hits and nothing to the misses.
    After [clear] the store is empty, both counters are 0 and the next
    read of any key is a miss. *)
Theorem C4_cache_idempotent_and_clear :
  (forall now1 now2 key (c : WeatherCache) e,
      store c !! key = Some e ->
      (now1 <= expiry e)%Q -> (now2 <= expiry e)%Q ->
      let c1 := snd (get now1 key c) in
      let c2 := snd (get now2 key c1) in
      fst (get now1 key c) = Some (data e) /\
      fst (get now2 key c1) = fst (get now1 key c) /\
      hits c2 = (hits c + 2)%Z /\ misses c2 = misses c) /\
  (forall (c : WeatherCache) now key,
      store (clear c) = ∅ /\ hits (clear c) = 0%Z /\ misses (clear c) = 0%Z /\
      fst (get now key (clear c)) = None /\
      misses (snd (get now key (clear c))) = 1%Z /\
      hits (snd (get now key (clear c))) = 0%Z).
Proof.
  split.
  - intros now1 now2 key c e He H1 H2 c1 c2. subst c1 c2.
    rewrite (get_live now1 key c e He H1). cbn [fst snd].
    rewrite (get_live now2 key _ e) by (cbn [store]; auto).
    cbn [fst snd hits misses]. repeat split; auto. lia.
  - intros c now key. repeat split; auto.
Qed.

(** Two reads, at instants 1200 and 1599, of the entry that expires at
    1600. *)
Lemma C4_cache_idempotent_witness :
  fst (get 1599 "current_paris" (snd (get 1200 "current_paris" paris_cache))) =
    fst (get 1200 "current_paris" paris_cache) /\
  hits (snd (get 1599 "current_paris"
               (snd (get 1200 "current_paris" paris_cache)))) = 2%Z.
Proof.
  destruct (proj1 C4_cache_idempotent_and_clear 1200%Q 1599%Q "current_paris"
              paris_cache
              {| data := paris_payload; expiry := 1000 + CACHE_TTL_SECONDS |})
    as (_ & H2 & H3 & _).
  - reflexivity.
  - vm_compute. discriminate.
  - vm_compute. discriminate.
  - split; [exact H2|exact H3].
Defined.

(** ** The endpoints and the upstream service *)

(** A failure of the geocoding call, of either kind, is answered with
    503. *)
Lemma get_coordinates_unavailable (client : http_client) city :
  (forall params,
      client OPEN_METEO_GEO_URL params = NoReply \/
      exists b, client OPEN_METEO_GEO_URL params = Reply true b) ->
  get_coordinates client city =
    Raise (HTTPException 503 "Weather service unavailable").
Proof.
  intros H. unfold get_coordinates, client_get.
  destruct (H [("name", JStr city); ("count", JNum 1);
               ("language", JStr "en"); ("format", JStr "json")])
    as [E|[b E]]; rewrite E; reflexivity.
Qed.

(** A city the geocoding service does not know is answered with 404. *)
Example unknown_city_404 :
  status_of 200
    (fst (get_current_weather healthy 0 0 "Atlantis" new_cache)) = 404%Z /\
  status_of 200
    (fst (get_weather_forecast healthy 0 0 "Atlantis" new_cache)) = 404%Z.
Proof. split; vm_compute; reflexivity. Qed.

(** A fresh payload is returned and cached; the second request is served
    from the cache without any upstream call. *)
Example paris_fresh_then_cached :
  let r1 := get_current_weather healthy 1000 1001 "Paris" new_cache in
  let r2 := get_current_weather geocoding_down 1200 1201 "PARIS" (snd r1) in
  status_of 200 (fst r1) = 200%Z /\ fst r2 = fst r1 /\
  get_stats (snd r2) =
    {| cache_hits := 1; cache_misses := 1; cached_items_count := 1 |}.
Proof. vm_compute. repeat split; reflexivity. Qed.

(** A timeout of either upstream call is answered with 503. *)
Example timeout_503 :
  status_of 200
    (fst (get_current_weather forecast_timeout 0 0 "Paris" new_cache)) = 503%Z /\
  status_of 200
    (fst (get_weather_forecast forecast_timeout 0 0 "Paris" new_cache)) = 503%Z /\
  status_of 200
    (fst (get_current_weather (fun _ _ => NoReply) 0 0 "Paris" new_cache)) = 503%Z.
Proof. repeat split; vm_compute; reflexivity. Qed.

(** C6 at the input where the code departs from it.  Geocoding finds the
    city; the forecast service answers with an error status, so
    [raise_for_status] raises [HTTPStatusError].  [get_current_weather]
    turns it into a 500 through its last handler, [get_weather_forecast]
    does not catch it at all, which is a 500 as well; neither answers
    503.  The same failure of the geocoding call is a 503. *)
Theorem C6_forecast_error_status_is_500 :
  fst (get_current_weather forecast_down 0 0 "Paris" new_cache) =
    Raise (HTTPException 500 "Internal Server Error") /\
  fst (get_weather_forecast forecast_down 0 0 "Paris" new_cache) =
    Raise HTTPStatusError /\
  status_of 200
    (fst (get_current_weather forecast_down 0 0 "Paris" new_cache)) = 500%Z /\
  status_of 200
    (fst (get_weather_forecast forecast_down 0 0 "Paris" new_cache)) = 500%Z /\
  status_of 200 (get_coordinates geocoding_down "Paris") = 503%Z.
Proof. repeat split; vm_compute; reflexivity. Qed.

(** ** The rate limiter *)

(** The middleware in one piece: prune, then deny or record. *)
Lemma rate_limiter_unfold ip now (st : gmap string (list Q)) :
  rate_limiter ip now st =
    let kept := recent now (getitem st ip) in
    if (RATE_LIMIT_MAX_REQUESTS <=? length kept)%nat
    then (Deny, <[ip := kept]> st)
    else (Allow, <[ip := (kept ++ [now])%list]> st).
Proof.
  unfold rate_limiter, getitem.
  destruct (st !! ip) as [l|] eqn:E; cbn zeta.
  - rewrite E. rewrite !lookup_insert_eq. cbn [default].
    destruct (_ <=? _)%nat; [reflexivity|].
    by rewrite insert_insert_eq.
  - rewrite !lookup_insert_eq. cbn [default recent List.filter].
    rewrite !insert_insert_eq. reflexivity.
Qed.

Lemma getitem_insert (st : gmap string (list Q)) ip l :
  getitem (<[ip := l]> st) ip = l.
Proof. unfold getitem. by rewrite lookup_insert_eq. Qed.

Lemma getitem_insert_ne (st : gmap string (list Q)) ip ip' l :
  ip <> ip' -> getitem (<[ip := l]> st) ip' = getitem st ip'.
Proof. intros H. unfold getitem. by rewrite lookup_insert_ne. Qed.

Lemma recent_In now l t :
  In t (recent now l) <-> In t l /\ ~ (t <= now - RATE_LIMIT_WINDOW)%Q.
Proof.
  unfold recent. rewrite filter_In, Qgtb_true.
  split; intros [H1 H2]; split; auto.
  - by apply Qlt_not_le.
  - by apply Qnot_le_lt.
Qed.

Lemma recent_length now l : (length (recent now l) <= length l)%nat.
Proof. unfold recent. apply List.filter_length_le. Qed.

Lemma burst_verdicts_nil used : burst_verdicts used 0 = [].
Proof. reflexivity. Qed.

Lemma burst_verdicts_deny used n :
  (RATE_LIMIT_MAX_REQUESTS <= used)%nat ->
  burst_verdicts used (S n) = Deny :: burst_verdicts used n.
Proof.
  intros H. unfold burst_verdicts.
  replace (RATE_LIMIT_MAX_REQUESTS - used)%nat with 0%nat by lia.
  rewrite !Nat.min_0_r, !Nat.sub_0_r. reflexivity.
Qed.

Lemma burst_verdicts_allow used n :
  (used < RATE_LIMIT_MAX_REQUESTS)%nat ->
  burst_verdicts used (S n) = Allow :: burst_verdicts (S used) n.
Proof.
  intros H. unfold burst_verdicts.
  destruct (RATE_LIMIT_MAX_REQUESTS - used)%nat as [|k] eqn:E; [lia|].
  replace (RATE_LIMIT_MAX_REQUESTS - S used)%nat with k by lia.
  rewrite <- Nat.succ_min_distr. reflexivity.
Qed.

Section Burst.
(** A burst: requests of one client at instants inside [[a, a + d]],
    an interval shorter than the window.  Before it the client's stored
    instants are either stale (at or before [a - W]) or inside the
    interval themselves. *)
Variables (ip : string) (a d : Q).
Hypothesis d_short : (d < RATE_LIMIT_WINDOW)%Q.

Let settled (l : list Q) : Prop :=
  Forall (fun s => s <= a - RATE_LIMIT_WINDOW \/ (a <= s /\ s <= a + d))%Q l.

Lemma recent_in_burst t l :
  (a <= t /\ t <= a + d)%Q -> settled l -> recent t l = recent a l.
Proof.
  intros Ht Hl. unfold recent. apply List.filter_ext_in.
  intros s Hs. unfold settled in Hl. rewrite List.Forall_forall in Hl.
  specialize (Hl s Hs). unfold RATE_LIMIT_WINDOW in *.
  destruct (Qgtb s (a - 60)) eqn:E.
  - apply Qgtb_true in E. apply Qgtb_true. lra.
  - apply Qgtb_false in E. apply Qgtb_false. lra.
Qed.

Lemma settled_recent l : settled l -> settled (recent a l).
Proof.
  unfold settled, recent. rewrite !List.Forall_forall.
  intros H s Hs. apply filter_In in Hs. apply H, Hs.
Qed.

Lemma recent_idem l : recent a (recent a l) = recent a l.
Proof.
  unfold recent. induction l as [|s l IH]; cbn; [reflexivity|].
  destruct (Qgtb s _) eqn:E; cbn; rewrite ?E, IH; reflexivity.
Qed.

Lemma recent_snoc t l :
  (a <= t)%Q -> recent a (l ++ [t]) = (recent a l ++ [t])%list.
Proof.
  intros Ht. unfold recent. rewrite List.filter_app. cbn.
  replace (Qgtb t (a - RATE_LIMIT_WINDOW)) with true; [reflexivity|].
  symmetry. apply Qgtb_true. unfold RATE_LIMIT_WINDOW. lra.
Qed.

Lemma serve_burst ts : forall (st : gmap string (list Q)),
  within a d ts -> settled (getitem st ip) ->
  fst (serve ip ts st) =
    burst_verdicts (length (recent a (getitem st ip))) (length ts) /\
  settled (getitem (snd (serve ip ts st)) ip) /\
  (ts <> [] ->
   getitem (snd (serve ip ts st)) ip =
     (recent a (getitem st ip) ++
      firstn (RATE_LIMIT_MAX_REQUESTS - length (recent a (getitem st ip))) ts)%list).
Proof.
  induction ts as [|t ts IH]; intros st Hts Hst.
  - cbn. split; [reflexivity|]. split; [exact Hst|congruence].
  - inversion Hts as [|? ? Ht Hts']; subst.
    unfold serve in *. cbn [List.map serve_all].
    rewrite rate_limiter_unfold. cbn zeta.
    rewrite (recent_in_burst t _ Ht Hst).
    set (live := recent a (getitem st ip)).
    change (length (t :: ts)) with (S (length ts)).
    assert (Hlive : settled live) by (by apply settled_recent).
    assert (Hidem : recent a live = live) by apply recent_idem.
    destruct (RATE_LIMIT_MAX_REQUESTS <=? length live)%nat eqn:E.
    + apply Nat.leb_le in E.
      specialize (IH (<[ip := live]> st) Hts').
      rewrite !getitem_insert, !Hidem in IH. specialize (IH Hlive).
      destruct (serve_all _ _) as [vs st'] eqn:E'.
      cbn [fst snd] in *. destruct IH as (IH1 & IH2 & IH3).
      replace (RATE_LIMIT_MAX_REQUESTS - length live)%nat with 0%nat in * by lia.
      cbn [firstn] in *. rewrite app_nil_r in *.
      split; [|split].
      * rewrite burst_verdicts_deny by exact E. by rewrite IH1.
      * exact IH2.
      * intros _. destruct ts as [|t' ts'].
        -- cbn in E'. injection E' as <- <-. apply getitem_insert.
        -- apply IH3. congruence.
    + apply Nat.leb_gt in E.
      specialize (IH (<[ip := (live ++ [t])%list]> st) Hts').
      rewrite !getitem_insert in IH.
      assert (Hnew : settled (live ++ [t])).
      { apply Forall_app. split; [exact Hlive|].
        constructor; [right; exact Ht|constructor]. }
      specialize (IH Hnew).
      rewrite recent_snoc, Hidem in IH by apply Ht.
      destruct (serve_all _ _) as [vs st'] eqn:E'.
      cbn [fst snd] in *. destruct IH as (IH1 & IH2 & IH3).
      rewrite length_app in IH1, IH3. cbn [length] in IH1, IH3.
      replace (length live + 1)%nat with (S (length live)) in IH1, IH3 by lia.
      split; [|split].
      * rewrite burst_verdicts_allow by exact E. by rewrite IH1.
      * exact IH2.
      * intros _.
        destruct (RATE_LIMIT_MAX_REQUESTS - length live)%nat as [|k] eqn:Ek; [lia|].
        replace (RATE_LIMIT_MAX_REQUESTS - S (length live))%nat with k in IH3 by lia.
        cbn [firstn].
        destruct ts as [|t' ts'].
        -- cbn in E'. injection E' as <- <-.
           rewrite getitem_insert. by rewrite firstn_nil.
        -- rewrite IH3 by congruence. by rewrite <- app_assoc.
Qed.
End Burst.

Lemma serve_all_app reqs1 reqs2 (st : gmap string (list Q)) :
  serve_all (reqs1 ++ reqs2) st =
    ((fst (serve_all reqs1 st) ++
      fst (serve_all reqs2 (snd (serve_all reqs1 st))))%list,
     snd (serve_all reqs2 (snd (serve_all reqs1 st)))).
Proof.
  revert st. induction reqs1 as [|[ip t] reqs1 IH]; intros st; cbn.
  - by destruct (serve_all reqs2 st).
  - destruct (rate_limiter ip t st) as [v st1].
    rewrite IH. by destruct (serve_all reqs1 st1).
Qed.

Lemma serve_app ip ts1 ts2 (st : gmap string (list Q)) :
  fst (serve ip (ts1 ++ ts2) st) =
    (fst (serve ip ts1 st) ++ fst (serve ip ts2 (snd (serve ip ts1 st))))%list.
Proof. unfold serve. by rewrite List.map_app, serve_all_app. Qed.

(** A burst of eleven requests that meets no live instant: ten are
    served, the eleventh is refused. *)
Lemma serve_eleven ip b ts (st : gmap string (list Q)) :
  elapsed b (getitem st ip) -> length ts = 11%nat -> within b 1 ts ->
  fst (serve ip ts st) = (repeat Allow 10 ++ [Deny])%list /\
  getitem (snd (serve ip ts st)) ip = firstn 10 ts.
Proof.
  intros Hold Hlen Hts.
  assert (Hd : (1 < RATE_LIMIT_WINDOW)%Q) by reflexivity.
  assert (Hnone : recent b (getitem st ip) = []).
  { unfold recent. induction Hold as [|s l Hs _ IH]; [reflexivity|].
    cbn. apply Qgtb_false in Hs. by rewrite Hs. }
  destruct (serve_burst ip b 1 Hd ts st Hts) as (Hv & _ & Hl).
  { unfold elapsed in Hold. eapply Forall_impl; [exact Hold|].
    intros s Hs. by left. }
  rewrite Hnone, Hlen in Hv. split; [exact Hv|].
  rewrite Hl by (intros ->; discriminate). by rewrite Hnone.
Qed.

(** C1.  Each check of the rate limiter first discards the client's
    stored instants at or before [now - 60], then refuses without
    recording [now] when at least 10 instants remain, and otherwise
    appends [now] and lets the request through.  Eleven requests of one
    client within one second get exactly ten [Allow] and one [Deny]; once
    the window has fully elapsed the next eleven get ten [Allow] again. *)
Theorem C1_rate_limiter_sliding_window :
  (forall ip now (st : gmap string (list Q)),
      let old := getitem st ip in
      let kept := recent now old in
      (forall t, In t kept <-> In t old /\ ~ (t <= now - 60)%Q) /\
      ((10 <= length kept)%nat ->
       rate_limiter ip now st = (Deny, <[ip := kept]> st)) /\
      ((length kept < 10)%nat ->
       rate_limiter ip now st = (Allow, <[ip := (kept ++ [now])%list]> st))) /\
  (forall ip a ts (st : gmap string (list Q)),
      st !! ip = None -> length ts = 11%nat -> within a 1 ts ->
      fst (serve ip ts st) = (repeat Allow 10 ++ [Deny])%list) /\
  (forall ip b ts (st : gmap string (list Q)),
      elapsed b (getitem st ip) -> length ts = 11%nat -> within b 1 ts ->
      fst (serve ip ts st) = (repeat Allow 10 ++ [Deny])%list) /\
  (forall ip a b ts1 ts2 (st : gmap string (list Q)),
      st !! ip = None ->
      length ts1 = 11%nat -> within a 1 ts1 ->
      length ts2 = 11%nat -> within b 1 ts2 ->
      (a + 1 + 60 <= b)%Q ->
      fst (serve ip (ts1 ++ ts2) st) =
        (repeat Allow 10 ++ [Deny] ++ repeat Allow 10 ++ [Deny])%list).
Proof.
  split; [|split; [|split]].
  - intros ip now st old kept. split; [|split].
    + intros t. apply recent_In.
    + intros H. rewrite rate_limiter_unfold. cbn zeta. fold old kept.
      apply Nat.leb_le in H. unfold RATE_LIMIT_MAX_REQUESTS. by rewrite H.
    + intros H. rewrite rate_limiter_unfold. cbn zeta. fold old kept.
      apply Nat.leb_gt in H. unfold RATE_LIMIT_MAX_REQUESTS. by rewrite H.
  - intros ip a ts st Hnone Hlen Hts.
    apply (serve_eleven ip a ts st); auto.
    unfold getitem. rewrite Hnone. constructor.
  - intros ip b ts st Hold Hlen Hts.
    by apply (serve_eleven ip b ts st).
  - intros ip a b ts1 ts2 st Hnone Hl1 Ht1 Hl2 Ht2 Hab.
    rewrite serve_app.
    destruct (serve_eleven ip a ts1 st) as [Hv1 Hs1]; auto.
    { unfold getitem. rewrite Hnone. constructor. }
    destruct (serve_eleven ip b ts2 (snd (serve ip ts1 st))) as [Hv2 _]; auto.
    { rewrite Hs1. unfold elapsed, within in *.
      apply Forall_take. eapply Forall_impl; [exact Ht1|].
      intros t [_ Ht]. unfold RATE_LIMIT_WINDOW. cbn beta. lra. }
    rewrite Hv1, Hv2. by rewrite <- !app_assoc.
Qed.

(** Eleven requests a tenth of a second apart, then eleven more a minute
    after the last. *)
Lemma C1_rate_limiter_witness :
  fst (serve "203.0.113.7"
         ([0; 0.1; 0.2; 0.3; 0.4; 0.5; 0.6; 0.7; 0.8; 0.9; 1]%Q ++
          [61; 61.1; 61.2; 61.3; 61.4; 61.5; 61.6; 61.7; 61.8; 61.9; 62]%Q)%list
         rate_limit_store0) =
    (repeat Allow 10 ++ [Deny] ++ repeat Allow 10 ++ [Deny])%list.
Proof.
  apply (proj2 (proj2 (proj2 C1_rate_limiter_sliding_window))
           "203.0.113.7" 0%Q 61%Q).
  - reflexivity.
  - reflexivity.
  - unfold within. repeat constructor; vm_compute; congruence.
  - reflexivity.
  - unfold within. repeat constructor; vm_compute; congruence.
  - vm_compute; congruence.
Defined.

(** ** The state of the rate limiter *)

Lemma rate_limiter_length ip now (st : gmap string (list Q)) :
  (forall c, length (getitem st c) <= RATE_LIMIT_MAX_REQUESTS)%nat ->
  forall c, (length (getitem (snd (rate_limiter ip now st)) c)
             <= RATE_LIMIT_MAX_REQUESTS)%nat.
Proof.
  intros Hst c. rewrite rate_limiter_unfold. cbn zeta.
  pose proof (recent_length now (getitem st ip)) as Hrec.
  specialize (Hst ip) as Hip.
  destruct (RATE_LIMIT_MAX_REQUESTS <=? _)%nat eqn:E; cbn [snd];
    (destruct (decide (ip = c)) as [->|Hne];
     [rewrite getitem_insert|rewrite getitem_insert_ne by exact Hne; apply Hst]).
  - lia.
  - apply Nat.leb_gt in E. rewrite length_app. cbn. lia.
Qed.

Lemma serve_all_length reqs : forall (st : gmap string (list Q)),
  (forall c, length (getitem st c) <= RATE_LIMIT_MAX_REQUESTS)%nat ->
  forall c, (length (getitem (snd (serve_all reqs st)) c)
             <= RATE_LIMIT_MAX_REQUESTS)%nat.
Proof.
  induction reqs as [|[ip t] reqs IH]; intros st Hst c; cbn.
  - apply Hst.
  - pose proof (rate_limiter_length ip t st Hst) as H1.
    destruct (rate_limiter ip t st) as [v st1]. cbn [snd] in H1.
    specialize (IH st1 H1 c).
    by destruct (serve_all reqs st1).
Qed.

Lemma rate_limiter_fresh ip now (st : gmap string (list Q)) :
  Forall (fun t => now - RATE_LIMIT_WINDOW < t)%Q
         (getitem (snd (rate_limiter ip now st)) ip).
Proof.
  rewrite rate_limiter_unfold. cbn zeta.
  assert (Hrec : Forall (fun t => now - RATE_LIMIT_WINDOW < t)%Q
                        (recent now (getitem st ip))).
  { apply List.Forall_forall. intros t Ht. apply recent_In in Ht.
    apply Qnot_le_lt, Ht. }
  destruct (_ <=? _)%nat; cbn [snd]; rewrite getitem_insert; [exact Hrec|].
  apply Forall_app. split; [exact Hrec|].
  constructor; [|constructor]. unfold RATE_LIMIT_WINDOW. lra.
Qed.

(** C9, as the code has it.  In every state the store can reach from the
    empty one, after a check at [now] for client [ip]: every client's
    list holds at most 10 instants, and the list of [ip], the client just
    checked, holds only instants strictly after [now - 60]. *)
Theorem C9_rate_limit_store_invariant :
  forall reqs ip now,
    let st' := snd (rate_limiter ip now (snd (serve_all reqs rate_limit_store0))) in
    (forall c, (length (getitem st' c) <= 10)%nat) /\
    Forall (fun t => now - 60 < t)%Q (getitem st' ip).
Proof.
  intros reqs ip now st'. split.
  - intros c. unfold st'. apply rate_limiter_length.
    apply serve_all_length. intros c'. unfold getitem, rate_limit_store0.
    rewrite lookup_empty. cbn. lia.
  - apply rate_limiter_fresh.
Qed.

(** C9 as stated fails for a client other than the one checked: its list
    is not pruned.  One client asks at instant 0, another at instant 100;
    the first client's list still holds 0, which is not after 100 - 60. *)
Lemma C9_other_client_not_pruned :
  let st' := snd (rate_limiter "198.51.100.2" 100
                    (snd (serve_all [("198.51.100.1", 0%Q)] rate_limit_store0))) in
  ~ Forall (fun t => 100 - 60 < t)%Q (getitem st' "198.51.100.1").
Proof.
  cbn zeta. intros H.
  assert (E : getitem (snd (rate_limiter "198.51.100.2" 100
                    (snd (serve_all [("198.51.100.1", 0%Q)] rate_limit_store0))))
                "198.51.100.1" = [0%Q]) by (vm_compute; reflexivity).
  rewrite E in H. inversion H as [|? ? H0 _]; subst.
  vm_compute in H0. discriminate.
Qed.

End WeatherFacts.

Module BlogFacts.
Import Orm Blog.

(** ** Pattern matching *)










(** Running a handler: the operations of the session are unfolded and
    the session's fields are read off. *)
Ltac session_run :=
  unfold open_session, Orm.open_session, add, Orm.add, delete, Orm.delete,
    register_change, commit, Orm.commit, rollback, Orm.rollback,
    query_first, refresh_new, active, try_except, raise,
    mbind, M_bind, mret, M_ret;
  cbn [failed pending stored persisted app flush fst snd].

Section Facts.
Variables (unique_username unique_email : bool).
Variable get_password_hash : string -> string.

(** ** Listing posts *)

Example search_python :
  fst (get_posts 0 10 (Some "python") (open_session blog)) = Return [basics] /\
  fst (get_posts 0 10 (Some "PYTHON") (open_session blog)) = Return [basics] /\
  fst (get_posts 0 10 (Some "fastapi") (open_session blog)) = Return [guide] /\
  fst (get_posts 0 10 None (open_session blog)) = Return [guide; basics] /\
  fst (get_posts 0 10 (Some "") (open_session blog)) = Return [guide; basics].
Proof. repeat split; vm_compute; reflexivity. Qed.

Example pagination_fifteen :
  (exists page, fst (get_posts 0 10 None (open_session fifteen)) = Return page /\
                length page = 10%nat) /\
  (exists page, fst (get_posts 10 10 None (open_session fifteen)) = Return page /\
                length page = 5%nat).
Proof. split; eexists; (split; [vm_compute; reflexivity|reflexivity]). Qed.


(** C8 at the input where the code departs from it.  The search string
    is a single underscore.  No title contains an underscore, yet the
    listing returns both posts: in the pattern that [get_posts] hands
    to [ilike] the underscore stands for any character. *)
Theorem C8_search_underscore_lists_every_post :
  fst (get_posts 0 10 (Some "_") (open_session blog)) = Return [guide; basics] /\
  icontains "_" (Post.title guide) = false /\
  icontains "_" (Post.title basics) = false /\
  List.filter (fun p => icontains "_" (Post.title p)) (posts blog) = [].
Proof. repeat split; vm_compute; reflexivity. Qed.

(** ** Ownership *)

Lemma update_post_forbidden (d : tables) post_id upd (actor : User.t) p :
  List.find (fun p => (Post.id p =? post_id)%Z) (posts d) = Some p ->
  Post.author_id p <> User.id actor ->
  update_post unique_username unique_email post_id upd actor (open_session d) =
    (Raise (HTTPException 403 "Not authorized to update this post"),
     open_session d).
Proof.
  intros Hp Hne. unfold update_post, mbind, M_bind, query_first, active.
  cbn [failed open_session Orm.open_session stored]. rewrite Hp.
  apply Z.eqb_neq in Hne. rewrite Hne. reflexivity.
Qed.

Lemma delete_post_forbidden (d : tables) post_id (actor : User.t) p :
  List.find (fun p => (Post.id p =? post_id)%Z) (posts d) = Some p ->
  Post.author_id p <> User.id actor ->
  delete_post unique_username unique_email post_id actor (open_session d) =
    (Raise (HTTPException 403 "Not authorized to delete this post"),
     open_session d).
Proof.
  intros Hp Hne. unfold delete_post, mbind, M_bind, query_first, active.
  cbn [failed open_session Orm.open_session stored]. rewrite Hp.
  apply Z.eqb_neq in Hne. rewrite Hne. reflexivity.
Qed.

Lemma delete_comment_forbidden (d : tables) comment_id (actor : User.t) c :
  List.find (fun c => (Comment.id c =? comment_id)%Z) (comments d) = Some c ->
  Comment.author_id c <> User.id actor ->
  delete_comment unique_username unique_email comment_id actor (open_session d) =
    (Raise (HTTPException 403 "Not authorized to delete this comment"),
     open_session d).
Proof.
  intros Hc Hne. unfold delete_comment, mbind, M_bind, query_first, active.
  cbn [failed open_session Orm.open_session stored]. rewrite Hc.
  apply Z.eqb_neq in Hne. rewrite Hne. reflexivity.
Qed.

Lemma update_post_by_owner (d : tables) post_id upd (actor : User.t) r :
  fst (update_post unique_username unique_email post_id upd actor
         (open_session d)) = Return r ->
  exists p, List.find (fun p => (Post.id p =? post_id)%Z) (posts d) = Some p /\
            Post.author_id p = User.id actor.
Proof.
  unfold update_post, mbind, M_bind, query_first, active.
  cbn [failed open_session Orm.open_session stored].
  destruct (List.find _ (posts d)) as [p|]; [|discriminate].
  destruct (Z.eqb_spec (Post.author_id p) (User.id actor)) as [E|E];
    [|discriminate].
  intros _. eauto.
Qed.

Lemma delete_post_by_owner (d : tables) post_id (actor : User.t) r :
  fst (delete_post unique_username unique_email post_id actor
         (open_session d)) = Return r ->
  exists p, List.find (fun p => (Post.id p =? post_id)%Z) (posts d) = Some p /\
            Post.author_id p = User.id actor.
Proof.
  unfold delete_post, mbind, M_bind, query_first, active.
  cbn [failed open_session Orm.open_session stored].
  destruct (List.find _ (posts d)) as [p|]; [|discriminate].
  destruct (Z.eqb_spec (Post.author_id p) (User.id actor)) as [E|E];
    [|discriminate].
  intros _. eauto.
Qed.

Lemma delete_comment_by_owner (d : tables) comment_id (actor : User.t) r :
  fst (delete_comment unique_username unique_email comment_id actor
         (open_session d)) = Return r ->
  exists c, List.find (fun c => (Comment.id c =? comment_id)%Z) (comments d)
            = Some c /\
            Comment.author_id c = User.id actor.
Proof.
  unfold delete_comment, mbind, M_bind, query_first, active.
  cbn [failed open_session Orm.open_session stored].
  destruct (List.find _ (comments d)) as [c|]; [|discriminate].
  destruct (Z.eqb_spec (Comment.author_id c) (User.id actor)) as [E|E];
    [|discriminate].
  intros _. eauto.
Qed.

(** The owner does get through: the update returns and the deletion
    removes the post. *)
Example owner_succeeds :
  fst (update_post unique_username unique_email 1
         {| pu_title := Some "FastAPI in depth"; pu_content := None |}
         alice (open_session blog)) =
    Return {| Post.id := 1; Post.title := "FastAPI in depth";
              Post.content := "A"; Post.author_id := 1 |} /\
  stored (snd (delete_post unique_username unique_email 1 alice
             (open_session blog))) =
    {| users := [alice; bob]; posts := [basics]; comments := [] |}.
Proof. split; reflexivity. Qed.

(** ** Registration *)

Lemma register_username_taken (d : tables) (user : UserCreate) u :
  List.find (fun u => String.eqb (User.username u) (uc_username user))
            (users d) = Some u ->
  register unique_username unique_email get_password_hash user
           (open_session d) =
    (Raise (HTTPException 400 "Username already registered"), open_session d).
Proof.
  intros Hu. unfold register, mbind, M_bind, query_first, active.
  cbn [failed open_session Orm.open_session stored]. rewrite Hu. reflexivity.
Qed.

(** The name is free, the address is not, and the table enforces unique
    addresses: the flush fails, the handler rolls back and answers 400;
    the session is as it was opened. *)
Lemma register_email_taken (d : tables) (user : UserCreate) :
  unique_email = true ->
  List.find (fun u => String.eqb (User.username u) (uc_username user))
            (users d) = None ->
  existsb (fun u => String.eqb (User.email u) (uc_email user)) (users d)
    = true ->
  register unique_username unique_email get_password_hash user
           (open_session d) =
    (Raise (HTTPException 400 "Email already registered"), open_session d).
Proof.
  intros Hue Hname Hmail.
  unfold register. session_run. rewrite Hname. session_run.
  cbn [apply_change]. unfold violates_unique. rewrite Hue, Hmail.
  rewrite orb_true_r. reflexivity.
Qed.


(** ** Updating a post *)

Lemma update_post_owner (d : tables) post_id upd (actor : User.t) p :
  List.find (fun p => (Post.id p =? post_id)%Z) (posts d) = Some p ->
  Post.author_id p = User.id actor ->
  let r := update_post unique_username unique_email post_id upd actor
             (open_session d) in
  fst r = Return (updated p upd) /\
  List.find (fun p => (Post.id p =? post_id)%Z) (posts (stored (snd r)))
    = Some (updated p upd) /\
  users (stored (snd r)) = users d /\
  comments (stored (snd r)) = comments d.
Proof.
  intros Hp Hown r. subst r.
  assert (Hid : Post.id p = post_id).
  { apply List.find_some in Hp as [_ Hp]. by apply Z.eqb_eq in Hp. }
  unfold update_post. session_run. rewrite Hp.
  apply Z.eqb_eq in Hown. rewrite Hown. cbn [negb].
  unfold updated.
  destruct (str_truthy (pu_title upd)), (str_truthy (pu_content upd));
    unfold set_title, set_content, refresh_post; session_run;
    cbn [apply_change failed pending stored persisted app flush fst snd
         posts users comments Post.id Post.title Post.content
         Post.author_id].
  all: rewrite <- Hid in Hp; cbn [stored posts users comments].
  - erewrite find_replace;
      [|reflexivity|erewrite find_replace; [reflexivity|reflexivity|exact Hp]].
    cbn [fst snd stored posts users comments]. rewrite <- Hid.
    erewrite find_replace;
      [|reflexivity|erewrite find_replace; [reflexivity|reflexivity|exact Hp]].
    auto.
  - erewrite find_replace; [|reflexivity|exact Hp].
    cbn [fst snd stored posts users comments]. rewrite <- Hid.
    erewrite find_replace; [|reflexivity|exact Hp]. auto.
  - erewrite find_replace; [|reflexivity|exact Hp].
    cbn [fst snd stored posts users comments]. rewrite <- Hid.
    erewrite find_replace; [|reflexivity|exact Hp]. auto.
  - rewrite Hp. cbn [fst snd stored posts users comments]. rewrite <- Hid, Hp.
    destruct p; auto.
Qed.

End Facts.

(** C2.  For a post or a comment that exists and an authenticated user
    whose id is not the resource's [author_id], updating or deleting the
    resource fails with 403, which is not 401, and leaves the session and
    the tables as they were; the operation returns only for the owner. *)
Theorem C2_only_the_owner_may_change :
  forall (unique_username unique_email : bool) (d : tables) (actor : User.t),
    (forall post_id p upd,
        List.find (fun p => (Post.id p =? post_id)%Z) (posts d) = Some p ->
        Post.author_id p <> User.id actor ->
        let r := update_post unique_username unique_email post_id upd actor
                   (open_session d) in
        let r' := delete_post unique_username unique_email post_id actor
                    (open_session d) in
        status_of 200 (fst r) = 403%Z /\ snd r = open_session d /\
        status_of 204 (fst r') = 403%Z /\ snd r' = open_session d /\
        403%Z <> 401%Z) /\
    (forall comment_id c,
        List.find (fun c => (Comment.id c =? comment_id)%Z) (comments d)
        = Some c ->
        Comment.author_id c <> User.id actor ->
        let r := delete_comment unique_username unique_email comment_id actor
                   (open_session d) in
        status_of 204 (fst r) = 403%Z /\ snd r = open_session d) /\
    (forall post_id upd p',
        fst (update_post unique_username unique_email post_id upd actor
               (open_session d)) = Return p' ->
        exists p,
          List.find (fun p => (Post.id p =? post_id)%Z) (posts d) = Some p /\
          Post.author_id p = User.id actor) /\
    (forall post_id,
        fst (delete_post unique_username unique_email post_id actor
               (open_session d)) = Return tt ->
        exists p,
          List.find (fun p => (Post.id p =? post_id)%Z) (posts d) = Some p /\
          Post.author_id p = User.id actor) /\
    (forall comment_id,
        fst (delete_comment unique_username unique_email comment_id actor
               (open_session d)) = Return tt ->
        exists c,
          List.find (fun c => (Comment.id c =? comment_id)%Z) (comments d)
          = Some c /\
          Comment.author_id c = User.id actor).
Proof.
  intros uu ue d actor. split; [|split; [|split; [|split]]].
  - intros post_id p upd Hp Hne r r'. subst r r'.
    rewrite (update_post_forbidden uu ue d post_id upd actor p Hp Hne).
    rewrite (delete_post_forbidden uu ue d post_id actor p Hp Hne).
    cbn. repeat split; easy.
  - intros comment_id c Hc Hne r. subst r.
    rewrite (delete_comment_forbidden uu ue d comment_id actor c Hc Hne).
    cbn. auto.
  - intros post_id upd p'. apply update_post_by_owner.
  - intros post_id. apply delete_post_by_owner.
  - intros comment_id. apply delete_comment_by_owner.
Qed.

(** The second user tries to change the first user's post and comment. *)
Lemma C2_only_the_owner_witness :
  status_of 200
    (fst (update_post true true 1
            {| pu_title := Some "Hacked Title"; pu_content := None |} bob
            (open_session blog))) = 403%Z /\
  snd (update_post true true 1
         {| pu_title := Some "Hacked Title"; pu_content := None |} bob
         (open_session blog)) = open_session blog /\
  status_of 204 (fst (delete_comment true true 1 bob (open_session blog)))
    = 403%Z.
Proof.
  destruct (C2_only_the_owner_may_change true true blog bob)
    as (Hpost & Hcomment & _).
  destruct (Hpost 1%Z guide
              {| pu_title := Some "Hacked Title"; pu_content := None |})
    as (H1 & H2 & _); [reflexivity|cbn; lia|].
  destruct (Hcomment 1%Z nice) as (H3 & _); [reflexivity|cbn; lia|].
  repeat split; assumption.
Defined.

End BlogFacts.

Module AccountsFacts.
Import Orm Accounts.

Ltac session_run :=
  unfold get_db, select_by_email, open_session, add, Orm.add,
    register_change, commit, Orm.commit, query_first, refresh_new, active,
    raise, mbind, M_bind, mret, M_ret;
  cbn [failed pending stored persisted app flush fst snd].

Section Facts.
Variable validate_email : string -> option string.
Variables (unique_email unique_username : bool).
Variable get_password_hash : string -> string.

(** ** The password policy *)

Lemma validate_password_short v :
  (String.length v < 8)%nat ->
  validate_password v =
    Raise (ValueError "Password must be at least 8 characters long").
Proof.
  intros H. unfold validate_password.
  apply Nat.ltb_lt in H. by rewrite H.
Qed.

Lemma validate_password_no_digit v :
  (8 <= String.length v)%nat -> has_digit v = false ->
  validate_password v =
    Raise (ValueError "Password must contain at least one number").
Proof.
  intros H Hd. unfold validate_password.
  apply Nat.ltb_ge in H. by rewrite H, Hd.
Qed.

Lemma validate_password_ok v :
  (8 <= String.length v)%nat -> has_digit v = true ->
  validate_password v = Return v.
Proof.
  intros H Hd. unfold validate_password.
  apply Nat.ltb_ge in H. by rewrite H, Hd.
Qed.

Lemma validate_password_rejects v :
  (String.length v < 8)%nat \/ has_digit v = false ->
  exists msg, validate_password v = Raise (ValueError msg).
Proof.
  intros H.
  destruct (Nat.lt_ge_cases (String.length v) 8) as [Hlt|Hge].
  - eexists. by apply validate_password_short.
  - destruct H as [H|H]; [lia|].
    eexists. by apply validate_password_no_digit.
Qed.

(** A body whose password breaks the policy does not pass validation,
    and the handler is not run. *)
Lemma post_register_rejects body (rows : list User.t) v :
  str_field body "password" = Some v ->
  (String.length v < 8)%nat \/ has_digit v = false ->
  post_register validate_email unique_email unique_username
                get_password_hash body rows =
    (Raise RequestValidationError, rows).
Proof.
  intros Hv Hbad. unfold post_register, UserCreate_validate.
  rewrite Hv.
  change (Some v ≫= (fun v => returned (validate_password v)))
    with (returned (validate_password v)).
  destruct (validate_password_rejects v Hbad) as [msg ->].
  cbn [returned]. destruct (_ ≫= validate_email); [|reflexivity].
  destruct (str_field body "username"); reflexivity.
Qed.

(** ** Registration *)

Lemma accounts_register_email_taken (rows : list User.t) (user : UserCreate) u :
  List.find (fun u => String.eqb (User.email u) (uc_email user)) rows = Some u ->
  get_db (register unique_email unique_username get_password_hash user) rows =
    (Raise (HTTPException 400 "Email already registered"), rows).
Proof.
  intros Hu. unfold register. session_run. rewrite Hu. reflexivity.
Qed.

(** ** Updating the profile *)

Lemma update_user_me_username_kept (rows : list User.t) upd (me : User.t) :
  str_truthy (uu_username upd) = false ->
  List.find (fun u => (User.id u =? User.id me)%Z) rows = Some me ->
  let r := get_db (update_user_me unique_email unique_username upd me) rows in
  (forall u, fst r = Return u -> User.username u = User.username me) /\
  (exists v, List.find (fun u => (User.id u =? User.id me)%Z) (snd r) = Some v /\
             User.username v = User.username me).
Proof.
  intros Hname Hme r. subst r.
  unfold update_user_me. rewrite Hname.
  destruct (str_truthy (uu_email upd) && _) eqn:Hmail.
  - session_run.
    destruct (List.find (fun u => String.eqb (User.email u) _) rows)
      as [taken|] eqn:Htaken.
    + cbn [fst snd]. split; [discriminate|eauto].
    + unfold set_email, refresh. session_run.
      cbn [apply_change User.id User.email User.username].
      destruct (violates_unique _ _ _ _ _ _).
      * cbn [fst snd stored]. split; [discriminate|eauto].
      * cbn [failed stored fst snd].
        erewrite find_replace; [|reflexivity|exact Hme].
        cbn [fst snd stored]. split.
        -- intros u [= <-]. reflexivity.
        -- erewrite find_replace; [|reflexivity|exact Hme]. eauto.
  - unfold refresh. session_run. rewrite Hme. cbn [fst snd stored].
    split; [by intros u [= <-]|eauto].
Qed.

End Facts.

End AccountsFacts.

(** * Claims that span the services *)

Lemma str_truthy_false (v : option string) :
  v = None \/ v = Some "" -> str_truthy v = false.
Proof. intros [->| ->]; reflexivity. Qed.

Lemma str_truthy_true_nonempty (v : option string) :
  str_truthy v = true -> default "" v <> "".
Proof.
  destruct v as [s|]; cbn; [|discriminate].
  destruct (String.eqb_spec s ""); [discriminate|auto].
Qed.

(** C5, as the code has it.  In the blog a registration under a name
    that is taken is refused with 400 before anything is written; under
    a free name and an address that is taken, with the table enforcing
    unique addresses, the flush fails, the failure is caught and rolled
    back and the answer is 400 again.  In the accounts service a
    registration under an address that is taken is refused with 400.  In
    each case the session and the tables are as they were, so the first
    identity is found as before. *)
Theorem C5_taken_identity_is_refused_with_400 :
  (forall unique_username unique_email hash (d : Blog.tables)
          (user : Blog.UserCreate) first,
      List.find (fun u => String.eqb (Blog.User.username u)
                                     (Blog.uc_username user))
                (Blog.users d) = Some first ->
      let r := Blog.register unique_username unique_email hash user
                 (Blog.open_session d) in
      fst r = Raise (HTTPException 400 "Username already registered") /\
      snd r = Blog.open_session d /\
      List.find (fun u => String.eqb (Blog.User.username u)
                                     (Blog.uc_username user))
                (Blog.users (Orm.stored (snd r))) = Some first) /\
  (forall unique_username hash (d : Blog.tables) (user : Blog.UserCreate) first,
      List.find (fun u => String.eqb (Blog.User.username u)
                                     (Blog.uc_username user))
                (Blog.users d) = None ->
      List.find (fun u => String.eqb (Blog.User.email u) (Blog.uc_email user))
                (Blog.users d) = Some first ->
      let r := Blog.register unique_username true hash user
                 (Blog.open_session d) in
      fst r = Raise (HTTPException 400 "Email already registered") /\
      snd r = Blog.open_session d /\
      List.find (fun u => String.eqb (Blog.User.email u) (Blog.uc_email user))
                (Blog.users (Orm.stored (snd r))) = Some first) /\
  (forall unique_email unique_username hash (rows : list Accounts.User.t)
          (user : Accounts.UserCreate) first,
      List.find (fun u => String.eqb (Accounts.User.email u)
                                     (Accounts.uc_email user)) rows
        = Some first ->
      let r := Accounts.get_db
                 (Accounts.register unique_email unique_username hash user)
                 rows in
      fst r = Raise (HTTPException 400 "Email already registered") /\
      snd r = rows).
Proof.
  split; [|split].
  - intros uu ue hash d user first Hfirst r. subst r.
    rewrite (BlogFacts.register_username_taken uu ue hash d user first Hfirst).
    cbn [fst snd]. auto.
  - intros uu hash d user first Hname Hfirst r. subst r.
    rewrite (BlogFacts.register_email_taken uu true hash d user eq_refl Hname).
    + cbn [fst snd]. auto.
    + apply List.existsb_exists. exists first.
      apply List.find_some in Hfirst. exact Hfirst.
  - intros ue uu hash rows user first Hfirst r. subst r.
    by rewrite (AccountsFacts.accounts_register_email_taken
                  ue uu hash rows user first Hfirst).
Qed.

(** The name [testuser] is taken in the blog; so is, under the other
    name, the address [test@example.com]. *)
Lemma C5_taken_identity_witness :
  fst (Blog.register true true (fun p => p)
         {| Blog.uc_username := "testuser"; Blog.uc_email := "new@example.com";
            Blog.uc_password := "password123" |}
         (Blog.open_session Blog.blog)) =
    Raise (HTTPException 400 "Username already registered") /\
  Blog.register true true (fun p => p)
    {| Blog.uc_username := "user_B"; Blog.uc_email := "test@example.com";
       Blog.uc_password := "pwd" |}
    (Blog.open_session Blog.blog) =
    (Raise (HTTPException 400 "Email already registered"),
     Blog.open_session Blog.blog).
Proof.
  destruct C5_taken_identity_is_refused_with_400 as (Hname & Hmail & _).
  split.
  - destruct (Hname true true (fun p => p) Blog.blog
                {| Blog.uc_username := "testuser";
                   Blog.uc_email := "new@example.com";
                   Blog.uc_password := "password123" |} Blog.alice)
      as (H & _); [reflexivity|exact H].
  - destruct (Hmail true (fun p => p) Blog.blog
                {| Blog.uc_username := "user_B";
                   Blog.uc_email := "test@example.com";
                   Blog.uc_password := "pwd" |} Blog.alice)
      as (H1 & H2 & _); [reflexivity|reflexivity|].
    apply injective_projections; assumption.
Defined.

(** C5 as stated fails in the accounts service, which looks for the
    address only.  A second account under the name of the first and
    another address is not refused with 400: where the table enforces
    unique names the flush fails and nothing catches the failure, which
    is a 500; where it does not, the account is created. *)
Lemma C5_accounts_taken_username_is_not_400 :
  ~ (forall unique_email hash (rows : list Accounts.User.t)
            (user : Accounts.UserCreate),
        existsb (fun u => String.eqb (Accounts.User.username u)
                                     (Accounts.uc_username user)) rows = true ->
        status_of 201
          (fst (Accounts.get_db
                  (Accounts.register unique_email true hash user) rows))
        = 400%Z) /\
  ~ (forall unique_email hash (rows : list Accounts.User.t)
            (user : Accounts.UserCreate),
        existsb (fun u => String.eqb (Accounts.User.username u)
                                     (Accounts.uc_username user)) rows = true ->
        status_of 201
          (fst (Accounts.get_db
                  (Accounts.register unique_email false hash user) rows))
        = 400%Z).
Proof.
  split; intros H;
    specialize (H true (fun p => p) [Accounts.carol] Accounts.second_carol
                  eq_refl);
    vm_compute in H; discriminate.
Qed.

(** What the two outcomes are. *)
Example accounts_taken_username_outcomes :
  fst (Accounts.get_db
         (Accounts.register true true (fun p => p) Accounts.second_carol)
         [Accounts.carol]) = Raise IntegrityError /\
  snd (Accounts.get_db
         (Accounts.register true false (fun p => p) Accounts.second_carol)
         [Accounts.carol]) =
    [Accounts.carol;
     {| Accounts.User.id := 2; Accounts.User.email := "dave@example.com";
        Accounts.User.username := "carol";
        Accounts.User.hashed_password := "s3cretpass" |}].
Proof. split; vm_compute; reflexivity. Qed.

(** C7, as the code has it.  In the accounts service a registration
    whose password is shorter than 8 characters or has no digit is
    refused at validation: the handler, and with it the hashing and the
    store, is not reached, and the table is as it was.  A password that
    meets both conditions passes the validator unchanged. *)
Theorem C7_accounts_password_policy :
  forall validate_email unique_email unique_username hash,
    (forall (body : json) (rows : list Accounts.User.t) v,
        Accounts.str_field body "password" = Some v ->
        (String.length v < 8)%nat \/ Accounts.has_digit v = false ->
        (exists msg, Accounts.validate_password v = Raise (ValueError msg)) /\
        Accounts.post_register validate_email unique_email unique_username
                               hash body rows =
          (Raise RequestValidationError, rows)) /\
    (forall v,
        (8 <= String.length v)%nat -> Accounts.has_digit v = true ->
        Accounts.validate_password v = Return v).
Proof.
  intros validate_email ue uu hash. split.
  - intros body rows v Hv Hbad. split.
    + by apply AccountsFacts.validate_password_rejects.
    + by apply AccountsFacts.post_register_rejects with (v := v).
  - intros v. apply AccountsFacts.validate_password_ok.
Qed.

(** A password of eight letters without a digit, and one that passes. *)
Lemma C7_accounts_password_witness :
  Accounts.post_register Accounts.simple_email true true (fun p => p)
    (Accounts.register_body "erin@example.com" "erin" "password")
    [Accounts.carol] =
    (Raise RequestValidationError, [Accounts.carol]) /\
  Accounts.validate_password "password123" = Return "password123".
Proof.
  destruct (C7_accounts_password_policy Accounts.simple_email true true
              (fun p => p)) as [Hbad Hok].
  split.
  - destruct (Hbad (Accounts.register_body "erin@example.com" "erin" "password")
                [Accounts.carol] "password") as [_ H];
      [reflexivity|right; reflexivity|exact H].
  - apply Hok; [cbn; lia|reflexivity].
Defined.

(** C7 as stated fails in the blog, whose [UserCreate] has no validator:
    the registration with the password [pwd] is accepted and stored. *)
Lemma C7_blog_accepts_any_password :
  ~ (forall unique_username unique_email hash (d : Blog.tables)
            (user : Blog.UserCreate),
        (String.length (Blog.uc_password user) < 8)%nat \/
        Accounts.has_digit (Blog.uc_password user) = false ->
        exists e,
          fst (Blog.register unique_username unique_email hash user
                 (Blog.open_session d)) = Raise e).
Proof.
  intros H.
  destruct (H true true (fun p => p) Blog.no_tables Blog.user_C) as [e He].
  - left. cbn. lia.
  - vm_compute in He. discriminate.
Qed.

(** C10.  When the owner updates a post, a title or a content that is
    absent or empty leaves that field as it was, so that neither field
    is ever set to the empty string; and an update of the profile with
    an absent or empty name leaves the name as it was. *)
Theorem C10_absent_or_empty_fields_are_not_written :
  (forall unique_username unique_email (d : Blog.tables) post_id
          (upd : Blog.PostUpdate) (actor : Blog.User.t) p,
      List.find (fun p => (Blog.Post.id p =? post_id)%Z) (Blog.posts d)
        = Some p ->
      Blog.Post.author_id p = Blog.User.id actor ->
      let r := Blog.update_post unique_username unique_email post_id upd actor
                 (Blog.open_session d) in
      exists p',
        fst r = Return p' /\
        List.find (fun p => (Blog.Post.id p =? post_id)%Z)
                  (Blog.posts (Orm.stored (snd r))) = Some p' /\
        (Blog.pu_title upd = None \/ Blog.pu_title upd = Some "" ->
         Blog.Post.title p' = Blog.Post.title p) /\
        (Blog.pu_content upd = None \/ Blog.pu_content upd = Some "" ->
         Blog.Post.content p' = Blog.Post.content p) /\
        (Blog.Post.title p' = "" -> Blog.Post.title p = "") /\
        (Blog.Post.content p' = "" -> Blog.Post.content p = "")) /\
  (forall unique_email unique_username (rows : list Accounts.User.t)
          (upd : Accounts.UserUpdate) (me : Accounts.User.t),
      Accounts.uu_username upd = None \/ Accounts.uu_username upd = Some "" ->
      List.find (fun u => (Accounts.User.id u =? Accounts.User.id me)%Z) rows
        = Some me ->
      let r := Accounts.get_db
                 (Accounts.update_user_me unique_email unique_username upd me)
                 rows in
      (forall u, fst r = Return u ->
                 Accounts.User.username u = Accounts.User.username me) /\
      (exists v,
          List.find (fun u => (Accounts.User.id u =? Accounts.User.id me)%Z)
                    (snd r) = Some v /\
          Accounts.User.username v = Accounts.User.username me)).
Proof.
  split.
  - intros uu ue d post_id upd actor p Hp Hown r. subst r.
    destruct (BlogFacts.update_post_owner uu ue d post_id upd actor p Hp Hown)
      as (Hr & Hfind & _).
    exists (Blog.updated p upd). split; [exact Hr|]. split; [exact Hfind|].
    unfold Blog.updated. cbn [Blog.Post.title Blog.Post.content].
    split; [|split; [|split]].
    + intros H. by rewrite (str_truthy_false _ H).
    + intros H. by rewrite (str_truthy_false _ H).
    + destruct (str_truthy (Blog.pu_title upd)) eqn:E; [|auto].
      intros H. by apply str_truthy_true_nonempty in E.
    + destruct (str_truthy (Blog.pu_content upd)) eqn:E; [|auto].
      intros H. by apply str_truthy_true_nonempty in E.
  - intros ue uu rows upd me Hname Hme.
    apply AccountsFacts.update_user_me_username_kept; [|exact Hme].
    by apply str_truthy_false.
Qed.

(** The owner sends an empty title and a new content; the holder of an
    account sends an empty name and a new address. *)
Lemma C10_absent_or_empty_witness :
  fst (Blog.update_post true true 1
         {| Blog.pu_title := Some ""; Blog.pu_content := Some "Second edition" |}
         Blog.alice (Blog.open_session Blog.blog)) =
    Return {| Blog.Post.id := 1; Blog.Post.title := "FastAPI Guide";
              Blog.Post.content := "Second edition";
              Blog.Post.author_id := 1 |} /\
  (exists v,
      List.find (fun u => (Accounts.User.id u =? 1)%Z)
        (snd (Accounts.get_db
                (Accounts.update_user_me true true
                   {| Accounts.uu_username := Some "";
                      Accounts.uu_email := Some "carol@example.org" |}
                   Accounts.carol)
                [Accounts.carol])) = Some v /\
      Accounts.User.username v = "carol").
Proof.
  destruct C10_absent_or_empty_fields_are_not_written as [Hpost Hme].
  split.
  - destruct (Hpost true true Blog.blog 1%Z
                {| Blog.pu_title := Some "";
                   Blog.pu_content := Some "Second edition" |}
                Blog.alice Blog.guide)
      as (p' & Hr & _); [reflexivity|reflexivity|].
    rewrite Hr. vm_compute in Hr. congruence.
  - destruct (Hme true true [Accounts.carol]
                {| Accounts.uu_username := Some "";
                   Accounts.uu_email := Some "carol@example.org" |}
                Accounts.carol)
      as (_ & H); [right; reflexivity|reflexivity|exact H].
Defined.

(** * Further properties of the weather proxy *)

Module WeatherMore.
Import Weather WeatherFacts.

(** ** The cache *)

(** X1.  An entry written at [t0] is served, unchanged, by every read up
    to [t0 + 600]; the first read after that finds it expired, removes it
    and counts a miss. *)
Theorem cache_set_then_get t0 t key d (c : WeatherCache) :
  ((t <= t0 + 600)%Q ->
     get t key (set t0 key d c) =
       (Some d, {| store := store (set t0 key d c);
                   hits := (hits c + 1)%Z; misses := misses c |})) /\
  ((t0 + 600 < t)%Q ->
     get t key (set t0 key d c) =
       (None, {| store := delete key (store c);
                 hits := hits c; misses := (misses c + 1)%Z |})).
Proof.
  set (e := {| data := d; expiry := t0 + CACHE_TTL_SECONDS |}).
  assert (He : store (set t0 key d c) !! key = Some e).
  { cbn [set store]. by rewrite lookup_insert_eq. }
  split; intros Ht.
  - by rewrite (get_live t key _ e He Ht).
  - rewrite (get_expired t key _ e He Ht).
    cbn [set store hits misses]. by rewrite delete_insert_eq.
Qed.

Lemma cache_set_then_get_witness :
  fst (get 1600 "current_paris" paris_cache) = Some paris_payload /\
  fst (get 1601 "current_paris" paris_cache) = None.
Proof.
  destruct (cache_set_then_get 1000 1600 "current_paris" paris_payload new_cache)
    as [H1 _].
  destruct (cache_set_then_get 1000 1601 "current_paris" paris_payload new_cache)
    as [_ H2].
  unfold paris_cache. rewrite H1, H2 by (vm_compute; congruence).
  split; reflexivity.
Defined.

(** X2.  Writing one key does not disturb the others: a read of another
    key gives what it would have given without the write, and moves the
    counters as it would have; the write itself moves no counter. *)
Theorem cache_set_other_key t0 t key key' d (c : WeatherCache) :
  key <> key' ->
  fst (get t key' (set t0 key d c)) = fst (get t key' c) /\
  hits (snd (get t key' (set t0 key d c))) = hits (snd (get t key' c)) /\
  misses (snd (get t key' (set t0 key d c))) = misses (snd (get t key' c)) /\
  hits (set t0 key d c) = hits c /\ misses (set t0 key d c) = misses c.
Proof.
  intros Hne. unfold get. cbn [set store hits misses].
  rewrite lookup_insert_ne by exact Hne.
  destruct (store c !! key') as [e|]; [|by cbn].
  destruct (Qgtb t (expiry e)); by cbn.
Qed.

Lemma cache_set_other_key_witness :
  fst (get 1200 "current_paris"
         (set 1100 "forecast_paris" (JObj [("city", JStr "Paris")]) paris_cache))
  = Some paris_payload.
Proof.
  destruct (cache_set_other_key 1100 1200 "forecast_paris" "current_paris"
              (JObj [("city", JStr "Paris")]) paris_cache) as [H _].
  - discriminate.
  - rewrite H. reflexivity.
Defined.

(** ** Counters and size over a run *)

Lemma cache_step_counters op (c : WeatherCache) (n : nat) :
  (0 <= hits c)%Z -> (0 <= misses c)%Z ->
  (hits c + misses c)%Z = Z.of_nat n ->
  (0 <= hits (cache_step op c))%Z /\ (0 <= misses (cache_step op c))%Z /\
  (hits (cache_step op c) + misses (cache_step op c))%Z =
    Z.of_nat (match op with
              | OpGet _ _ => S n
              | OpSet _ _ _ => n
              | OpClear => 0
              end).
Proof.
  intros Hh Hm Hsum. destruct op as [now key|now key d|]; cbn [cache_step].
  - unfold get. destruct (store c !! key) as [e|];
      [destruct (Qgtb now (expiry e))|]; cbn [snd hits misses]; lia.
  - cbn [set hits misses]. lia.
  - cbn [clear hits misses]. lia.
Qed.

Lemma cache_step_size op (c : WeatherCache) (n : nat) :
  (size (store c) <= n)%nat ->
  (size (store (cache_step op c)) <=
     match op with
     | OpGet _ _ => n
     | OpSet _ _ _ => S n
     | OpClear => 0
     end)%nat.
Proof.
  intros Hn. destruct op as [now key|now key d|]; cbn [cache_step].
  - unfold get. destruct (store c !! key) as [e|] eqn:E;
      [destruct (Qgtb now (expiry e))|]; cbn [snd store]; try lia.
    rewrite map_size_delete_Some by eauto. lia.
  - cbn [set store]. pose proof (map_size_insert key
      {| data := d; expiry := now + CACHE_TTL_SECONDS |} (store c)) as H.
    rewrite H. destruct (store c !! key); cbn; lia.
  - cbn [clear store]. rewrite map_size_empty. lia.
Qed.

Lemma cache_run_invariant ops : forall (c : WeatherCache) (reads writes : nat),
  (0 <= hits c)%Z -> (0 <= misses c)%Z ->
  (hits c + misses c)%Z = Z.of_nat reads ->
  (size (store c) <= writes)%nat ->
  (0 <= hits (cache_run ops c))%Z /\ (0 <= misses (cache_run ops c))%Z /\
  (hits (cache_run ops c) + misses (cache_run ops c))%Z =
    Z.of_nat (reads_since_clear ops reads) /\
  (size (store (cache_run ops c)) <= writes_since_clear ops writes)%nat.
Proof.
  induction ops as [|op ops IH]; intros c reads writes Hh Hm Hsum Hsize.
  - cbn. auto.
  - change (cache_run (op :: ops) c) with (cache_run ops (cache_step op c)).
    destruct (cache_step_counters op c reads Hh Hm Hsum) as (Hh' & Hm' & Hsum').
    pose proof (cache_step_size op c writes Hsize) as Hsize'.
    destruct op; cbn [reads_since_clear writes_since_clear];
      by apply IH.
Qed.

(** X3.  After any run of reads, writes and clears on a new cache, the
    two counters are not negative and add up to the number of reads since
    the last clear, and the cache holds at most as many entries as there
    were writes since the last clear. *)
Theorem cache_stats_account_for_every_call (ops : list cache_op) :
  let s := get_stats (cache_run ops new_cache) in
  (0 <= cache_hits s)%Z /\ (0 <= cache_misses s)%Z /\
  (cache_hits s + cache_misses s)%Z = Z.of_nat (reads_since_clear ops 0) /\
  (cached_items_count s <= writes_since_clear ops 0)%nat.
Proof.
  cbn zeta. unfold get_stats. cbn [cache_hits cache_misses cached_items_count].
  apply cache_run_invariant; cbn; try lia.
  rewrite map_size_empty. lia.
Qed.

(** ** The limiter: clients do not interfere *)

Lemma rate_limiter_other ip c now (st : gmap string (list Q)) :
  ip <> c -> snd (rate_limiter ip now st) !! c = st !! c.
Proof.
  intros Hne. rewrite rate_limiter_unfold. cbn zeta.
  destruct (_ <=? _)%nat; cbn [snd]; by rewrite lookup_insert_ne.
Qed.

Lemma rate_limiter_own ip now (st1 st2 : gmap string (list Q)) :
  getitem st1 ip = getitem st2 ip ->
  fst (rate_limiter ip now st1) = fst (rate_limiter ip now st2) /\
  getitem (snd (rate_limiter ip now st1)) ip =
    getitem (snd (rate_limiter ip now st2)) ip.
Proof.
  intros H. rewrite !rate_limiter_unfold. cbn zeta. rewrite H.
  destruct (_ <=? _)%nat; cbn [fst snd]; by rewrite !getitem_insert.
Qed.

Lemma serve_all_own ip reqs : forall (st1 st2 : gmap string (list Q)),
  getitem st1 ip = getitem st2 ip ->
  own_verdicts ip reqs (fst (serve_all reqs st1)) =
    fst (serve ip (own ip reqs) st2) /\
  getitem (snd (serve_all reqs st1)) ip =
    getitem (snd (serve ip (own ip reqs) st2)) ip.
Proof.
  induction reqs as [|[c t] reqs IH]; intros st1 st2 H.
  - cbn. auto.
  - unfold own, serve in *. cbn [serve_all List.filter fst snd].
    destruct (String.eqb_spec c ip) as [->|Hne].
    + cbn [List.map serve_all snd].
      destruct (rate_limiter_own ip t st1 st2 H) as [Hv Hl].
      destruct (rate_limiter ip t st1) as [v1 st1'].
      destruct (rate_limiter ip t st2) as [v2 st2'].
      cbn [fst snd] in Hv, Hl. subst v2.
      specialize (IH st1' st2' Hl).
      destruct (serve_all reqs st1') as [vs1 st1''].
      destruct (serve_all _ st2') as [vs2 st2''].
      cbn [fst snd own_verdicts] in *. rewrite String.eqb_refl.
      destruct IH as [-> ->]. auto.
    + assert (Hl : getitem (snd (rate_limiter c t st1)) ip = getitem st2 ip).
      { unfold getitem. rewrite rate_limiter_other by exact Hne. exact H. }
      destruct (rate_limiter c t st1) as [v1 st1']. cbn [snd] in Hl.
      specialize (IH st1' st2 Hl).
      destruct (serve_all reqs st1') as [vs1 st1''].
      cbn [fst snd own_verdicts] in *.
      apply String.eqb_neq in Hne. rewrite Hne. exact IH.
Qed.

(** X4.  Clients are limited independently of one another: a check for
    one client leaves every other client's list as it is, and among
    interleaved requests of several clients each client gets the
    verdicts it would get if it were alone. *)
Theorem clients_are_limited_independently
    ip (reqs : list (string * Q)) (st : gmap string (list Q)) :
  (forall c now, ip <> c -> snd (rate_limiter ip now st) !! c = st !! c) /\
  own_verdicts ip reqs (fst (serve_all reqs st)) =
    fst (serve ip (own ip reqs) st) /\
  getitem (snd (serve_all reqs st)) ip =
    getitem (snd (serve ip (own ip reqs) st)) ip.
Proof.
  split.
  - intros c now. apply rate_limiter_other.
  - by apply serve_all_own.
Qed.

(** ** The limiter: the window *)

Lemma recent_recent t0 t l :
  (t0 <= t)%Q -> recent t (recent t0 l) = recent t l.
Proof.
  intros Ht. unfold recent, RATE_LIMIT_WINDOW.
  induction l as [|s l IH]; [reflexivity|]. cbn [List.filter].
  destruct (Qgtb s (t0 - 60)) eqn:E0; cbn [List.filter].
  - by rewrite IH.
  - rewrite IH. apply Qgtb_false in E0.
    replace (Qgtb s (t - 60)) with false; [reflexivity|].
    symmetry. apply Qgtb_false. lra.
Qed.

Lemma recent_app t l1 l2 : recent t (l1 ++ l2) = recent t l1 ++ recent t l2.
Proof. unfold recent. apply List.filter_app. Qed.

Lemma recent_self t : recent t [t] = [t].
Proof.
  unfold recent, RATE_LIMIT_WINDOW. cbn.
  replace (Qgtb t (t - 60)) with true; [reflexivity|].
  symmetry. apply Qgtb_true. lra.
Qed.

Lemma last_cons (s lo : Q) (ts : list Q) :
  List.last (s :: ts) lo = List.last ts s.
Proof.
  revert s lo. induction ts as [|u ts IH]; intros s lo; [reflexivity|].
  change (List.last (s :: u :: ts) lo) with (List.last (u :: ts) lo).
  rewrite IH. symmetry. apply IH.
Qed.

Lemma nondecreasing_snoc lo ts t :
  nondecreasing lo (ts ++ [t]) <->
  nondecreasing lo ts /\ (List.last ts lo <= t)%Q.
Proof.
  revert lo. induction ts as [|s ts IH]; intros lo.
  - cbn. tauto.
  - change ((s :: ts) ++ [t]) with (s :: (ts ++ [t])).
    cbn [nondecreasing]. rewrite IH, last_cons. tauto.
Qed.

Lemma serve_window ip ts : forall (st : gmap string (list Q)) acc now0,
  getitem st ip = recent now0 acc ->
  (length (getitem st ip) <= 10)%nat ->
  nondecreasing now0 ts ->
  getitem (snd (serve ip ts st)) ip =
    recent (List.last ts now0) (acc ++ allowed ts (fst (serve ip ts st))) /\
  (length (getitem (snd (serve ip ts st)) ip) <= 10)%nat.
Proof.
  induction ts as [|t ts IH]; intros st acc now0 Hst Hlen Hts.
  - cbn. rewrite app_nil_r. auto.
  - destruct Hts as [Ht Hts]. unfold serve in *.
    cbn [List.map serve_all]. rewrite rate_limiter_unfold. cbn zeta.
    rewrite Hst, (recent_recent now0 t acc Ht).
    assert (Hkept : (length (recent t acc) <= 10)%nat).
    { rewrite <- (recent_recent now0 t acc Ht), <- Hst.
      etransitivity; [apply recent_length|exact Hlen]. }
    rewrite last_cons.
    destruct (RATE_LIMIT_MAX_REQUESTS <=? _)%nat eqn:E.
    + specialize (IH (<[ip := recent t acc]> st) acc t).
      rewrite getitem_insert in IH. specialize (IH eq_refl Hkept Hts).
      destruct (serve_all _ _) as [vs st']. cbn [fst snd allowed] in *.
      exact IH.
    + apply Nat.leb_gt in E. unfold RATE_LIMIT_MAX_REQUESTS in E.
      specialize (IH (<[ip := recent t acc ++ [t]]> st) (acc ++ [t]) t).
      rewrite getitem_insert, recent_app, recent_self in IH.
      specialize (IH eq_refl).
      rewrite length_app in IH. cbn [length] in IH.
      specialize (IH ltac:(lia) Hts).
      destruct (serve_all _ _) as [vs st']. cbn [fst snd allowed] in *.
      rewrite <- app_assoc in IH. exact IH.
Qed.

(** X5.  The guarantee of the sliding window.  When the instants of a
    client's requests do not go back in time, the list kept for the
    client is exactly its allowed instants of the last 60 seconds; a
    request at [t] is let through exactly when fewer than 10 of the
    client's earlier allowed requests are later than [t - 60]; and so no
    more than 10 requests are ever allowed within 60 seconds.  Refused
    requests leave no trace. *)
Theorem sliding_window_allows_ten_per_minute
    ip ts t t0 (st : gmap string (list Q)) :
  st !! ip = None ->
  nondecreasing t0 (ts ++ [t]) ->
  let vs := fst (serve ip ts st) in
  let st' := snd (serve ip ts st) in
  getitem st' ip = recent (List.last ts t0) (allowed ts vs) /\
  fst (rate_limiter ip t st') =
    (if (10 <=? length (recent t (allowed ts vs)))%nat then Deny else Allow) /\
  (length (recent t (allowed ts vs ++
                     allowed [t] [fst (rate_limiter ip t st')])) <= 10)%nat.
Proof.
  intros Hnone Hts vs st'. subst vs st'.
  apply nondecreasing_snoc in Hts as [Hts Ht].
  assert (H0 : getitem st ip = recent t0 []).
  { unfold getitem. by rewrite Hnone. }
  destruct (serve_window ip ts st [] t0 H0) as [Hl Hlen]; [|exact Hts|].
  { rewrite H0. cbn. lia. }
  cbn [app] in Hl. split; [exact Hl|].
  rewrite rate_limiter_unfold. cbn zeta.
  rewrite Hl, (recent_recent _ t _ Ht).
  assert (Hkept : (length (recent t (allowed ts (fst (serve ip ts st)))) <= 10)%nat).
  { rewrite <- (recent_recent _ t _ Ht), <- Hl.
    etransitivity; [apply recent_length|exact Hlen]. }
  unfold RATE_LIMIT_MAX_REQUESTS.
  destruct (10 <=? _)%nat eqn:E; cbn [fst allowed].
  - split; [reflexivity|]. by rewrite app_nil_r.
  - split; [reflexivity|]. apply Nat.leb_gt in E.
    rewrite recent_app, recent_self, length_app. cbn [length]. lia.
Qed.

Lemma sliding_window_witness :
  fst (rate_limiter "203.0.113.7" 59
         (snd (serve "203.0.113.7" [0; 1; 2; 3; 4; 5; 6; 7; 8; 9; 30]%Q
                 rate_limit_store0))) = Deny.
Proof.
  destruct (sliding_window_allows_ten_per_minute "203.0.113.7"
              [0; 1; 2; 3; 4; 5; 6; 7; 8; 9; 30]%Q 59%Q 0%Q rate_limit_store0)
    as (_ & H & _).
  - reflexivity.
  - cbn. repeat split; vm_compute; congruence.
  - rewrite H. reflexivity.
Defined.

Lemma clients_are_limited_independently_witness :
  snd (rate_limiter "198.51.100.2" 100
         (snd (serve "198.51.100.1" [0; 1]%Q rate_limit_store0)))
    !! "198.51.100.1" = Some [0; 1]%Q.
Proof.
  destruct (clients_are_limited_independently "198.51.100.2" []
              (snd (serve "198.51.100.1" [0; 1]%Q rate_limit_store0)))
    as [H _].
  rewrite (H "198.51.100.1" 100%Q) by discriminate.
  vm_compute. reflexivity.
Defined.

(** ** Geocoding *)

Lemma index_not_httpx (v : json) (i : nat) (e : exn) :
  index v i = Raise e -> e = RequestError \/ e = HTTPStatusError -> False.
Proof.
  destruct v as [| | |s|l|its]; cbn.
  1-3,6: intros [= <-] [H|H]; discriminate.
  - destruct (String.get i s); [discriminate|].
    intros [= <-] [H|H]; discriminate.
  - destruct (nth_error l i); [discriminate|].
    intros [= <-] [H|H]; discriminate.
Qed.

(** [get_coordinates] by the answer of the geocoding service. *)
Lemma get_coordinates_unfold (client : http_client) (city : string) :
  get_coordinates client city =
    match client OPEN_METEO_GEO_URL (geo_params city) with
    | NoReply | Reply true _ =>
        Raise (HTTPException 503 "Weather service unavailable")
    | Reply false None => Raise JSONDecodeError
    | Reply false (Some (JObj items)) =>
        if truthy (default JNull (assoc "results" items))
        then match assoc "results" items with
             | Some r => index r 0
             | None => Raise KeyError
             end
        else Raise (HTTPException 404 ("City '" ++ city ++ "' not found.")%string)
    | Reply false (Some _) => Raise AttributeError
    end.
Proof.
  unfold get_coordinates, client_get. fold (geo_params city).
  destruct (client OPEN_METEO_GEO_URL (geo_params city)) as [|[] [d|]];
    try reflexivity.
  destruct d as [| | | | |items]; try reflexivity. cbn.
  destruct (truthy _); [|reflexivity].
  destruct (assoc "results" items) as [r|]; [|reflexivity]. cbn.
  destruct (index r 0) as [loc|e] eqn:Hi; [reflexivity|].
  destruct e; try reflexivity; exfalso;
    eapply index_not_httpx; eauto.
Qed.

(** X6.  [get_coordinates] lets no error of the HTTP client through: a
    call that fails or times out, and a response with an error status,
    both become a 503; a response whose document has no results, or an
    empty list of them, becomes the 404 that names the city; and a
    response with a list of results gives the first of them. *)
Theorem get_coordinates_outcomes (client : http_client) (city : string) :
  let answer := client OPEN_METEO_GEO_URL (geo_params city) in
  get_coordinates client city <> Raise RequestError /\
  get_coordinates client city <> Raise HTTPStatusError /\
  (answer = NoReply \/ (exists b, answer = Reply true b) ->
   get_coordinates client city =
     Raise (HTTPException 503 "Weather service unavailable")) /\
  (forall items,
      answer = Reply false (Some (JObj items)) ->
      truthy (default JNull (assoc "results" items)) = false ->
      get_coordinates client city =
        Raise (HTTPException 404 ("City '" ++ city ++ "' not found.")%string)) /\
  (forall items location others,
      answer = Reply false (Some (JObj items)) ->
      assoc "results" items = Some (JList (location :: others)) ->
      get_coordinates client city = Return location).
Proof.
  cbn zeta. rewrite get_coordinates_unfold.
  destruct (client OPEN_METEO_GEO_URL (geo_params city))
    as [|[] [d|]] eqn:E.
  1-3: repeat split; try discriminate; auto; intros; discriminate.
  - destruct d as [| | | | |items].
    1-5: repeat split; try discriminate; intros; try discriminate;
         match goal with H : _ \/ _ |- _ => destruct H as [|[? ?]] end;
         discriminate.
    split; [|split; [|split; [|split]]].
    + destruct (truthy _); [|discriminate].
      destruct (assoc "results" items) as [r|]; [|discriminate].
      intros H. eapply index_not_httpx; [exact H|auto].
    + destruct (truthy _); [|discriminate].
      destruct (assoc "results" items) as [r|]; [|discriminate].
      intros H. eapply index_not_httpx; [exact H|auto].
    + intros [H|[b H]]; discriminate.
    + intros items' [= <-] Ht. by rewrite Ht.
    + intros items' location others [= <-] Hr. by rewrite Hr.
  - repeat split; try discriminate; intros; try discriminate.
    match goal with H : _ \/ _ |- _ => destruct H as [|[? ?]] end; discriminate.
Qed.

Lemma get_coordinates_outcomes_witness :
  get_coordinates geocoding_down "Paris" =
    Raise (HTTPException 503 "Weather service unavailable") /\
  get_coordinates healthy "Atlantis" =
    Raise (HTTPException 404 "City 'Atlantis' not found.") /\
  get_coordinates healthy "Paris" = Return paris_location.
Proof.
  split; [|split].
  - apply (get_coordinates_outcomes geocoding_down "Paris").
    right. by exists None.
  - apply (proj1 (proj2 (proj2 (proj2
             (get_coordinates_outcomes healthy "Atlantis"))))
             [("generationtime_ms", JNum 0.5)]); reflexivity.
  - apply (proj2 (proj2 (proj2 (proj2
             (get_coordinates_outcomes healthy "Paris"))))
             [("results", JList [paris_location])] paris_location []);
      reflexivity.
Defined.

(** ** The two endpoints, case by case *)

Lemma subscript_raises v key e : subscript v key = Raise e -> internal e.
Proof.
  destruct v as [| | | | |items]; cbn;
    try (intros [= <-]; (split; [reflexivity|discriminate])).
  destruct (assoc key items); [discriminate|].
  intros [= <-]; split; [reflexivity|discriminate].
Qed.

Lemma py_get_raises v key e : py_get v key = Raise e -> internal e.
Proof.
  destruct v; cbn; try discriminate;
    intros [= <-]; (split; [reflexivity|discriminate]).
Qed.

Lemma index_raises v i e : index v i = Raise e -> internal e.
Proof.
  destruct v as [| | |s|l|its]; cbn;
    try (intros [= <-]; (split; [reflexivity|discriminate])).
  - destruct (String.get i s); [discriminate|].
    intros [= <-]; split; [reflexivity|discriminate].
  - destruct (nth_error l i); [discriminate|].
    intros [= <-]; (split; [reflexivity|discriminate]).
Qed.

Lemma py_len_raises v e : py_len v = Raise e -> internal e.
Proof.
  destruct v; cbn; try discriminate;
    intros [= <-]; (split; [reflexivity|discriminate]).
Qed.

Lemma get_weather_desc_raises v e : get_weather_desc v = Raise e -> internal e.
Proof.
  destruct v; cbn; try discriminate;
    intros [= <-]; (split; [reflexivity|discriminate]).
Qed.

Lemma response_json_raises r e : response_json r = Raise e -> internal e.
Proof.
  destruct r as [|b [d|]]; cbn; try discriminate;
    intros [= <-]; (split; [reflexivity|discriminate]).
Qed.

Lemma raise_for_status_raises r e :
  raise_for_status r = Raise e -> internal e.
Proof.
  destruct r as [|[] b]; cbn; try discriminate;
    intros [= <-]; (split; [reflexivity|discriminate]).
Qed.

Lemma client_get_raises (client : http_client) url params e :
  client_get client url params = Raise e -> e = RequestError.
Proof.
  unfold client_get. destruct (client url params); [|discriminate].
  by intros [= <-].
Qed.

Lemma internal_status (e : exn) : internal e -> status_of 200 (@Raise json e) = 500%Z.
Proof. intros [H _]. destruct e; cbn in *; auto. Qed.

Lemma get_coordinates_raises (client : http_client) city e :
  get_coordinates client city = Raise e ->
  status_of 200 (@Raise json e) = 404%Z \/
  status_of 200 (@Raise json e) = 500%Z \/
  status_of 200 (@Raise json e) = 503%Z.
Proof.
  rewrite get_coordinates_unfold.
  destruct (client OPEN_METEO_GEO_URL (geo_params city)) as [|[] [d|]].
  1-3,5: intros [= <-]; cbn; auto.
  destruct d as [| | | | |items].
  1-5: intros [= <-]; cbn; auto.
  destruct (truthy (default JNull (assoc "results" items)));
    [|intros [= <-]; cbn; auto].
  destruct (assoc "results" items) as [r|]; [|intros [= <-]; cbn; auto].
  intros H. apply index_raises, internal_status in H. auto.
Qed.

(** One step of a chain of binds: the first call whose outcome is still
    open is split into its two outcomes. *)
Ltac bind_step H :=
  match goal with
  | |- context [match ?x with Return _ => _ | Raise _ => _ end] =>
      lazymatch x with
      | context [match _ with Return _ => _ | Raise _ => _ end] => fail
      | _ => destruct x eqn:H
      end
  end.

(** What [get_current_weather] comes to: a hit, a fresh payload that is
    written to the cache, or an error that is not. *)
Lemma current_cases (client : http_client) t_get t_set city (c : WeatherCache) :
  let key := current_key city in
  let c1 := snd (get t_get key c) in
  let out := get_current_weather client t_get t_set city c in
  (cached_truthy (fst (get t_get key c)) = true /\
   out = (Return (default JNull (fst (get t_get key c))), c1)) \/
  (cached_truthy (fst (get t_get key c)) = false /\
   exists items, length items = 8%nat /\
     out = (Return (JObj items), set t_set key (JObj items) c1)) \/
  (cached_truthy (fst (get t_get key c)) = false /\
   exists e, out = (Raise e, c1) /\
     (status_of 200 (@Raise json e) = 404%Z \/
      status_of 200 (@Raise json e) = 500%Z \/
      status_of 200 (@Raise json e) = 503%Z)).
Proof.
  cbn zeta. unfold get_current_weather. fold (current_key city).
  destruct (get t_get (current_key city) c) as [cached c1]. cbn [fst snd].
  destruct (cached_truthy cached); [left; auto|right].
  unfold mbind, result_bind, mret, result_ret.
  assert (Herr : forall e : exn,
    status_of 200 (@Raise json e) = 404%Z \/
    status_of 200 (@Raise json e) = 500%Z \/
    status_of 200 (@Raise json e) = 503%Z ->
    false = false /\
    exists e', (@Raise json e, c1) = (Raise e', c1) /\
      (status_of 200 (@Raise json e') = 404%Z \/
       status_of 200 (@Raise json e') = 500%Z \/
       status_of 200 (@Raise json e') = 503%Z)) by eauto.
  destruct (get_coordinates client city) as [location|e] eqn:Hloc.
  2:{ right. apply Herr. by apply get_coordinates_raises in Hloc. }
  bind_step H1;
    [|right; apply Herr; apply subscript_raises, internal_status in H1; auto].
  bind_step H2;
    [|right; apply Herr; apply subscript_raises, internal_status in H2; auto].
  bind_step H3;
    [|right; apply Herr; apply subscript_raises, internal_status in H3; auto].
  repeat (let H := fresh "Hb" in
          bind_step H; [|right; destruct e; apply Herr; cbn; auto]).
  left. split; [reflexivity|]. eexists. split; [|reflexivity]. reflexivity.
Qed.

Lemma forecast_rows_raises daily n : forall i e,
  forecast_rows daily n i = Raise e -> internal e.
Proof.
  induction n as [|n IH]; intros i e; [discriminate|].
  cbn [forecast_rows]. unfold mbind, result_bind, mret, result_ret.
  repeat (let H := fresh "Hb" in
          bind_step H;
          [|intros [= <-];
            first [ by apply subscript_raises in H
                  | by apply index_raises in H
                  | by apply get_weather_desc_raises in H
                  | by apply IH in H ]]).
  discriminate.
Qed.

Lemma forecast_rows_length daily n : forall i rows,
  forecast_rows daily n i = Return rows -> length rows = n.
Proof.
  induction n as [|n IH]; intros i rows.
  - by intros [= <-].
  - cbn [forecast_rows]. unfold mbind, result_bind, mret, result_ret.
    repeat (let H := fresh "Hb" in bind_step H; [|discriminate]).
    intros [= <-]. cbn [length]. f_equal. eapply IH. eassumption.
Qed.

(** What [get_weather_forecast] comes to. *)
Lemma forecast_cases (client : http_client) t_get t_set city (c : WeatherCache) :
  let key := forecast_key city in
  let c1 := snd (get t_get key c) in
  let out := get_weather_forecast client t_get t_set city c in
  (cached_truthy (fst (get t_get key c)) = true /\
   out = (Return (default JNull (fst (get t_get key c))), c1)) \/
  (cached_truthy (fst (get t_get key c)) = false /\
   exists items, length items = 3%nat /\
     out = (Return (JObj items), set t_set key (JObj items) c1)) \/
  (cached_truthy (fst (get t_get key c)) = false /\
   exists e, out = (Raise e, c1) /\
     (status_of 200 (@Raise json e) = 404%Z \/
      status_of 200 (@Raise json e) = 500%Z \/
      status_of 200 (@Raise json e) = 503%Z)).
Proof.
  cbn zeta. unfold get_weather_forecast. fold (forecast_key city).
  destruct (get t_get (forecast_key city) c) as [cached c1]. cbn [fst snd].
  destruct (cached_truthy cached); [left; auto|right].
  unfold mbind, result_bind, mret, result_ret.
  assert (Herr : forall e : exn,
    status_of 200 (@Raise json e) = 404%Z \/
    status_of 200 (@Raise json e) = 500%Z \/
    status_of 200 (@Raise json e) = 503%Z ->
    false = false /\
    exists e', (@Raise json e, c1) = (Raise e', c1) /\
      (status_of 200 (@Raise json e') = 404%Z \/
       status_of 200 (@Raise json e') = 500%Z \/
       status_of 200 (@Raise json e') = 503%Z)) by eauto.
  assert (Hint : forall e : exn, internal e ->
    false = false /\
    exists e',
      match @Raise json e with
      | Return r => (Return r, set t_set (forecast_key city) r c1)
      | Raise RequestError =>
          (Raise (HTTPException 503 "Weather service unavailable"), c1)
      | Raise e0 => (Raise e0, c1)
      end = (Raise e', c1) /\
      (status_of 200 (@Raise json e') = 404%Z \/
       status_of 200 (@Raise json e') = 500%Z \/
       status_of 200 (@Raise json e') = 503%Z)).
  { intros e He. pose proof (internal_status e He) as Hs.
    destruct He as [_ Hne]. split; [reflexivity|].
    destruct e; try contradiction; eauto. }
  destruct (get_coordinates client city) as [location|e] eqn:Hloc.
  2:{ right. apply Herr. by apply get_coordinates_raises in Hloc. }
  bind_step H1;
    [|right; apply Herr; apply subscript_raises, internal_status in H1; auto].
  bind_step H2;
    [|right; apply Herr; apply subscript_raises, internal_status in H2; auto].
  repeat (let H := fresh "Hb" in
          bind_step H;
          [|right;
            first [ apply client_get_raises in H; subst; apply Herr; cbn; auto
                  | apply Hint;
                    first [ by apply raise_for_status_raises in H
                          | by apply response_json_raises in H
                          | by apply subscript_raises in H
                          | by apply py_len_raises in H
                          | by apply py_get_raises in H
                          | by apply forecast_rows_raises in H ] ]]).
  left. split; [reflexivity|]. eexists. split; [|reflexivity]. reflexivity.
Qed.


(** X8.  An error is never written to the cache: when an endpoint
    answers with an error the cache is what the read at the start of the
    request has left, so that no key of the store is new. *)
Theorem weather_errors_are_not_cached
    (client : http_client) t_get t_set city (c : WeatherCache) :
  (forall e,
      fst (get_current_weather client t_get t_set city c) = Raise e ->
      snd (get_current_weather client t_get t_set city c) =
        snd (get t_get (current_key city) c)) /\
  (forall e,
      fst (get_weather_forecast client t_get t_set city c) = Raise e ->
      snd (get_weather_forecast client t_get t_set city c) =
        snd (get t_get (forecast_key city) c)) /\
  (forall t key k v,
      store (snd (get t key c)) !! k = Some v -> store c !! k = Some v).
Proof.
  split; [|split].
  - intros e.
    destruct (current_cases client t_get t_set city c)
      as [[_ ->]|[(_ & items & _ & ->)|(_ & e' & -> & _)]]; cbn [fst snd];
      [discriminate|discriminate|reflexivity].
  - intros e.
    destruct (forecast_cases client t_get t_set city c)
      as [[_ ->]|[(_ & items & _ & ->)|(_ & e' & -> & _)]]; cbn [fst snd];
      [discriminate|discriminate|reflexivity].
  - intros t key k v. unfold get.
    destruct (store c !! key) as [e|]; [destruct (Qgtb t (expiry e))|];
      cbn [snd store]; auto.
    intros H. apply lookup_delete_Some in H. tauto.
Qed.

Lemma weather_errors_are_not_cached_witness :
  snd (get_current_weather forecast_down 1700 1701 "Paris" paris_cache) =
    snd (get 1700 "current_paris" paris_cache).
Proof.
  destruct (weather_errors_are_not_cached forecast_down 1700 1701 "Paris"
              paris_cache) as [H _].
  apply (H (HTTPException 500 "Internal Server Error")).
  vm_compute. reflexivity.
Defined.

(** X9.  A live entry answers the request without any call upstream:
    whatever the upstream service would do, the endpoint returns the
    cached payload, counts a hit and leaves the store alone. *)
Theorem cached_payload_needs_no_upstream
    (client : http_client) t_get t_set city (c : WeatherCache) e :
  (t_get <= expiry e)%Q -> truthy (data e) = true ->
  (store c !! current_key city = Some e ->
   get_current_weather client t_get t_set city c =
     (Return (data e),
      {| store := store c; hits := (hits c + 1)%Z; misses := misses c |})) /\
  (store c !! forecast_key city = Some e ->
   get_weather_forecast client t_get t_set city c =
     (Return (data e),
      {| store := store c; hits := (hits c + 1)%Z; misses := misses c |})).
Proof.
  intros Ht Hd. split; intros He.
  - destruct (current_cases client t_get t_set city c)
      as [[_ H]|[(H & _)|(H & _)]];
      rewrite (get_live t_get _ c e He Ht) in H; cbn [fst snd] in H.
    + exact H.
    + cbn [cached_truthy] in H. congruence.
    + cbn [cached_truthy] in H. congruence.
  - destruct (forecast_cases client t_get t_set city c)
      as [[_ H]|[(H & _)|(H & _)]];
      rewrite (get_live t_get _ c e He Ht) in H; cbn [fst snd] in H.
    + exact H.
    + cbn [cached_truthy] in H. congruence.
    + cbn [cached_truthy] in H. congruence.
Qed.

Lemma cached_payload_needs_no_upstream_witness :
  fst (get_current_weather (fun _ _ => NoReply) 1200 1201 "PaRiS" paris_cache)
    = Return paris_payload.
Proof.
  destruct (cached_payload_needs_no_upstream (fun _ _ => NoReply) 1200 1201
              "PaRiS" paris_cache
              {| data := paris_payload; expiry := 1000 + CACHE_TTL_SECONDS |})
    as [H _].
  - vm_compute. discriminate.
  - reflexivity.
  - rewrite H; reflexivity.
Defined.

(** X10.  A payload fetched on a miss is written under the city's name
    in lower case and is served from there, whatever the letter case of
    the city in the request and whatever the upstream service does by
    then, to every request that reads the cache within 600 seconds of the
    write. *)
Theorem fresh_payload_is_cached_for_ten_minutes
    (client client' : http_client) t1 t2 t3 t4 city city' (c : WeatherCache) r :
  py_lower city' = py_lower city -> (t3 <= t2 + 600)%Q ->
  (cached_truthy (fst (get t1 (current_key city) c)) = false ->
   fst (get_current_weather client t1 t2 city c) = Return r ->
   fst (get_current_weather client' t3 t4 city'
          (snd (get_current_weather client t1 t2 city c))) = Return r) /\
  (cached_truthy (fst (get t1 (forecast_key city) c)) = false ->
   fst (get_weather_forecast client t1 t2 city c) = Return r ->
   fst (get_weather_forecast client' t3 t4 city'
          (snd (get_weather_forecast client t1 t2 city c))) = Return r).
Proof.
  intros Hcity Ht. split; intros Hmiss Hr.
  - assert (Hkey : current_key city' = current_key city)
      by (unfold current_key; by rewrite Hcity).
    destruct (current_cases client t1 t2 city c)
      as [[H _]|[(_ & items & Hlen & Hout)|(_ & e & Hout & _)]];
      [congruence| |rewrite Hout in Hr; discriminate].
    rewrite Hout in Hr |- *. cbn [fst snd] in *. injection Hr as <-.
    destruct (cached_payload_needs_no_upstream client' t3 t4 city'
                (set t2 (current_key city) (JObj items)
                     (snd (get t1 (current_key city) c)))
                {| data := JObj items; expiry := t2 + CACHE_TTL_SECONDS |})
      as [H _]; [exact Ht|by destruct items|].
    rewrite H; [reflexivity|].
    rewrite Hkey. cbn [set store]. by rewrite lookup_insert_eq.
  - assert (Hkey : forecast_key city' = forecast_key city)
      by (unfold forecast_key; by rewrite Hcity).
    destruct (forecast_cases client t1 t2 city c)
      as [[H _]|[(_ & items & Hlen & Hout)|(_ & e & Hout & _)]];
      [congruence| |rewrite Hout in Hr; discriminate].
    rewrite Hout in Hr |- *. cbn [fst snd] in *. injection Hr as <-.
    destruct (cached_payload_needs_no_upstream client' t3 t4 city'
                (set t2 (forecast_key city) (JObj items)
                     (snd (get t1 (forecast_key city) c)))
                {| data := JObj items; expiry := t2 + CACHE_TTL_SECONDS |})
      as [_ H]; [exact Ht|by destruct items|].
    rewrite H; [reflexivity|].
    rewrite Hkey. cbn [set store]. by rewrite lookup_insert_eq.
Qed.

Lemma fresh_payload_is_cached_witness :
  fst (get_current_weather geocoding_down 1601 1602 "PARIS"
         (snd (get_current_weather healthy 1000 1001 "Paris" new_cache))) =
  fst (get_current_weather healthy 1000 1001 "Paris" new_cache).
Proof.
  destruct (fresh_payload_is_cached_for_ten_minutes healthy geocoding_down
              1000 1001 1601 1602 "Paris" "PARIS" new_cache
              (JObj [("city", JStr "Paris"); ("country", JStr "France");
                     ("temperature", JNum 18.5); ("unit", JStr "Celsius");
                     ("humidity", JNum 60); ("wind_speed", JNum 12.4);
                     ("condition", JStr "Overcast");
                     ("timestamp", JStr "2024-05-01T12:00")]))
    as [H _].
  - reflexivity.
  - vm_compute. discriminate.
  - rewrite H; reflexivity.
Defined.

(** ** The forecast *)

Lemma forecast_rows_shape daily n : forall i rows,
  forecast_rows daily n i = Return rows -> Forall forecast_row rows.
Proof.
  induction n as [|n IH]; intros i rows.
  - intros [= <-]. constructor.
  - cbn [forecast_rows]. unfold mbind, result_bind, mret, result_ret.
    repeat (let H := fresh "Hb" in bind_step H; [|discriminate]).
    intros [= <-]. constructor; [|eapply IH; eassumption].
    unfold forecast_row. eauto 10.
Qed.

(** X11.  When the loop over the days of the forecast completes it has
    built one row for each entry of the array of dates, each row being
    the five-field object of a day; it completes only if the other four
    arrays are at least as long as the array of dates. *)
Theorem forecast_has_one_row_per_day daily n rows :
  forecast_rows daily n 0 = Return rows ->
  length rows = n /\ Forall forecast_row rows /\
  (forall key l,
      In key ["time"; "temperature_2m_max"; "temperature_2m_min";
              "weather_code"; "precipitation_sum"] ->
      subscript daily key = Return (JList l) -> (n <= length l)%nat).
Proof.
  intros H. split; [by eapply forecast_rows_length|].
  split; [by eapply forecast_rows_shape|].
  intros key l Hkey Hl.
  assert (Hgen : forall n i rows,
             forecast_rows daily n i = Return rows -> (i + n <= length l)%nat
             \/ n = 0%nat).
  { clear H rows n. induction n as [|n IH]; intros i rows; [auto|].
    cbn [forecast_rows]. unfold mbind, result_bind, mret, result_ret.
    repeat (let H := fresh "Hb" in bind_step H; [|discriminate]).
    intros _. left.
    assert (Hi : (i < length l)%nat).
    { cbn [In] in Hkey.
      destruct Hkey as [<-|[<-|[<-|[<-|[<-|[]]]]]];
        match goal with
        | H1 : subscript daily ?k = Return ?a, H2 : index ?a i = Return _ |- _ =>
            rewrite Hl in H1; injection H1 as <-; cbn in H2;
            destruct (nth_error l i) eqn:E; [|discriminate];
            apply nth_error_Some; congruence
        end. }
    match goal with
    | H : forecast_rows daily n (S i) = Return _ |- _ =>
        destruct (IH _ _ H) as [IH'| ->]; lia
    end. }
  destruct (Hgen n 0%nat rows H) as [H'| ->]; lia.
Qed.

Lemma forecast_has_one_row_per_day_witness :
  exists rows, forecast_rows two_days 2 0 = Return rows /\ length rows = 2%nat.
Proof.
  eexists. split; [vm_compute; reflexivity|].
  eapply (forecast_has_one_row_per_day two_days 2).
  vm_compute. reflexivity.
Defined.

(** ** Weather codes *)

Lemma wmo_lookup_compat q q' codes :
  (q == q')%Q -> wmo_lookup q codes = wmo_lookup q' codes.
Proof.
  intros Hq. induction codes as [|[k d] codes IH]; [reflexivity|].
  cbn [wmo_lookup]. rewrite IH.
  destruct (Qeq_bool q (inject_Z k)) eqn:E, (Qeq_bool q' (inject_Z k)) eqn:E';
    try reflexivity.
  - apply Qeq_bool_iff in E. apply Qeq_bool_neq in E'.
    exfalso. apply E'. by rewrite <- Hq.
  - apply Qeq_bool_iff in E'. apply Qeq_bool_neq in E.
    exfalso. apply E. by rewrite Hq.
Qed.

Lemma wmo_lookup_unknown q codes :
  (forall k d, In (k, d) codes -> ~ (q == inject_Z k)%Q) ->
  wmo_lookup q codes = "Unknown".
Proof.
  induction codes as [|[k d] codes IH]; intros H; [reflexivity|].
  cbn [wmo_lookup].
  destruct (Qeq_bool q (inject_Z k)) eqn:E.
  - apply Qeq_bool_iff in E. exfalso. eapply H; [left; reflexivity|exact E].
  - apply IH. intros k' d' Hin. apply (H k' d'). by right.
Qed.

(** X12.  [get_weather_desc] gives a number that equals one of the
    listed codes the description of that code, whether the number came
    as an integer or as a float of the same value, and gives everything
    else that can be looked up the description [Unknown]: a number that
    is no listed code, a string (the digits of a code included), and
    [None]. *)
Theorem weather_code_descriptions :
  (forall k d q, In (k, d) WMO_CODES -> (q == inject_Z k)%Q ->
                 get_weather_desc (JNum q) = Return d) /\
  (forall q, (forall k d, In (k, d) WMO_CODES -> ~ (q == inject_Z k)%Q) ->
             get_weather_desc (JNum q) = Return "Unknown") /\
  (forall s, get_weather_desc (JStr s) = Return "Unknown") /\
  get_weather_desc JNull = Return "Unknown".
Proof.
  split; [|split; [|split]]; try reflexivity.
  - intros k d q Hin Hq. cbn [get_weather_desc].
    rewrite (wmo_lookup_compat q (inject_Z k) WMO_CODES Hq).
    f_equal. unfold WMO_CODES in Hin. cbn [In] in Hin.
    repeat (destruct Hin as [[= <- <-]|Hin]; [vm_compute; reflexivity|]).
    destruct Hin.
  - intros q Hq. cbn [get_weather_desc]. f_equal.
    by apply wmo_lookup_unknown.
Qed.

Lemma weather_code_descriptions_witness :
  get_weather_desc (JNum (6 # 2)) = Return "Overcast" /\
  get_weather_desc (JNum 4) = Return "Unknown".
Proof.
  destruct weather_code_descriptions as (Hknown & Hunknown & _).
  split.
  - apply (Hknown 3%Z "Overcast"); [cbn; tauto|reflexivity].
  - apply Hunknown. intros k d Hin. unfold WMO_CODES in Hin. cbn [In] in Hin.
    repeat (destruct Hin as [[= <- <-]|Hin]; [vm_compute; discriminate|]).
    destruct Hin.
Defined.

End WeatherMore.

(** * Further properties of the blog *)

Module BlogMore.
Import Orm Blog BlogFacts.

(** ** Searching *)



(** ** Pages *)





Section More.
Variables (unique_username unique_email : bool).
Variable get_password_hash : string -> string.

(** ** What is not there *)


(** ** Comments *)

Lemma create_comment_result
    (d : tables) post_id (comment : CommentCreate) (actor : User.t) p :
  List.find (fun p => (Post.id p =? post_id)%Z) (posts d) = Some p ->
  let c := {| Comment.id := next_id (List.map Comment.id (comments d));
              Comment.text := cc_text comment; Comment.post_id := post_id;
              Comment.author_id := User.id actor |} in
  create_comment unique_username unique_email post_id comment actor
                 (open_session d) =
    (Return c,
     {| stored := {| users := users d; posts := posts d;
                     comments := comments d ++ [c] |};
        pending := []; persisted := [CommentRow c]; failed := false |}).
Proof.
  intros Hp c. unfold create_comment. session_run. rewrite Hp. reflexivity.
Qed.

(** X16.  A comment on a post that is there is stored with the text
    sent, the post addressed and the user who sent it as author; the
    handler returns the stored row, and the comments of the post are
    afterwards those of before followed by the new one.  Users and posts
    are not touched. *)
Theorem create_comment_then_get_comments
    (d : tables) post_id (comment : CommentCreate) (actor : User.t) p :
  List.find (fun p => (Post.id p =? post_id)%Z) (posts d) = Some p ->
  let r := create_comment unique_username unique_email post_id comment actor
             (open_session d) in
  exists c,
    fst r = Return c /\
    Comment.text c = cc_text comment /\ Comment.post_id c = post_id /\
    Comment.author_id c = User.id actor /\
    comments (stored (snd r)) = comments d ++ [c] /\
    fst (get_comments post_id (snd r)) =
      Return (listing_of_comments post_id d ++ [c]) /\
    users (stored (snd r)) = users d /\ posts (stored (snd r)) = posts d.
Proof.
  intros Hp r. subst r.
  rewrite (create_comment_result d post_id comment actor p Hp).
  eexists. split; [reflexivity|].
  cbn [fst snd Comment.text Comment.post_id Comment.author_id stored comments
       users posts].
  repeat split.
  unfold get_comments, listing_of_comments. session_run.
  cbn [comments]. f_equal.
  rewrite List.filter_app. cbn [List.filter Comment.post_id].
  by rewrite Z.eqb_refl.
Qed.

Lemma filter_other_key {A} (key : A -> Z) (k : Z) (l : list A) (a : A) :
  key a <> k ->
  (In a (List.filter (fun x => negb (key x =? k)%Z) l) <-> In a l).
Proof.
  intros Hne. rewrite filter_In. apply Z.eqb_neq in Hne. rewrite Hne.
  cbn. tauto.
Qed.

Lemma find_filter_out {A} (key : A -> Z) (k : Z) (l : list A) :
  List.find (fun x => (key x =? k)%Z)
            (List.filter (fun x => negb (key x =? k)%Z) l) = None.
Proof.
  induction l as [|x l IH]; [reflexivity|]. cbn [List.filter].
  destruct (key x =? k)%Z eqn:E; cbn [negb]; [exact IH|].
  cbn [List.find]. by rewrite E.
Qed.

(** X17.  When its author deletes a comment the handler returns, no
    comment with that key is left, every other comment is still there,
    and users and posts are not touched; a second deletion of the same
    comment is answered with 404. *)
Theorem delete_comment_by_its_author
    (d : tables) comment_id (actor : User.t) c :
  List.find (fun c => (Comment.id c =? comment_id)%Z) (comments d) = Some c ->
  Comment.author_id c = User.id actor ->
  let r := delete_comment unique_username unique_email comment_id actor
             (open_session d) in
  fst r = Return tt /\
  List.find (fun c => (Comment.id c =? comment_id)%Z)
            (comments (stored (snd r))) = None /\
  (forall c', Comment.id c' <> comment_id ->
              (In c' (comments (stored (snd r))) <-> In c' (comments d))) /\
  users (stored (snd r)) = users d /\ posts (stored (snd r)) = posts d /\
  fst (delete_comment unique_username unique_email comment_id actor (snd r))
    = Raise (HTTPException 404 "Comment not found").
Proof.
  intros Hc Hown r. subst r.
  assert (Hid : Comment.id c = comment_id).
  { apply List.find_some in Hc as [_ Hc]. by apply Z.eqb_eq in Hc. }
  assert (Hrun :
    delete_comment unique_username unique_email comment_id actor
                   (open_session d) =
      (Return tt,
       open_session
         {| users := users d; posts := posts d;
            comments := List.filter
                          (fun c' => negb (Comment.id c' =? comment_id)%Z)
                          (comments d) |})).
  { unfold delete_comment. session_run. rewrite Hc.
    apply Z.eqb_eq in Hown. rewrite Hown. cbn [negb]. session_run.
    cbn [apply_change]. by rewrite Hid. }
  rewrite Hrun. cbn [fst snd]. unfold open_session, Orm.open_session.
  cbn [stored comments users posts].
  split; [reflexivity|]. split; [apply (find_filter_out Comment.id)|].
  split; [intros c' Hc'; by apply (filter_other_key Comment.id)|].
  split; [reflexivity|]. split; [reflexivity|].
  unfold delete_comment. session_run. cbn [comments].
  by rewrite (find_filter_out Comment.id).
Qed.

(** ** Posts *)

(** X18.  When its author deletes a post the handler returns, no post
    with that key is left, so that reading it is answered with 404,
    every other post is still there, and the users are not touched. *)
Theorem delete_post_by_its_author (d : tables) post_id (actor : User.t) p :
  List.find (fun p => (Post.id p =? post_id)%Z) (posts d) = Some p ->
  Post.author_id p = User.id actor ->
  let r := delete_post unique_username unique_email post_id actor
             (open_session d) in
  fst r = Return tt /\
  List.find (fun p => (Post.id p =? post_id)%Z) (posts (stored (snd r)))
    = None /\
  fst (get_post post_id (snd r)) = Raise (HTTPException 404 "Post not found") /\
  (forall q, Post.id q <> post_id ->
             (In q (posts (stored (snd r))) <-> In q (posts d))) /\
  users (stored (snd r)) = users d.
Proof.
  intros Hp Hown r. subst r.
  assert (Hid : Post.id p = post_id).
  { apply List.find_some in Hp as [_ Hp]. by apply Z.eqb_eq in Hp. }
  assert (Hrun :
    delete_post unique_username unique_email post_id actor (open_session d) =
      (Return tt,
       open_session
         {| users := users d;
            posts := List.filter (fun q => negb (Post.id q =? post_id)%Z)
                                 (posts d);
            comments := cascade p (comments d) |})).
  { unfold delete_post. session_run. rewrite Hp.
    apply Z.eqb_eq in Hown. rewrite Hown. cbn [negb]. session_run.
    cbn [apply_change]. by rewrite Hid. }
  rewrite Hrun. cbn [fst snd]. unfold open_session, Orm.open_session.
  cbn [stored comments users posts].
  split; [reflexivity|]. split; [apply (find_filter_out Post.id)|].
  split.
  - unfold get_post. session_run. cbn [posts].
    by rewrite (find_filter_out Post.id).
  - split; [|reflexivity]. intros q Hq. by apply (filter_other_key Post.id).
Qed.

End More.


Lemma create_comment_then_get_comments_witness :
  fst (get_comments 1
         (snd (create_comment true true 1 {| cc_text := "Thanks" |} bob
                 (open_session blog)))) =
    Return [nice; {| Comment.id := 2; Comment.text := "Thanks";
                     Comment.post_id := 1; Comment.author_id := 2 |}].
Proof.
  destruct (create_comment_then_get_comments true true blog 1
              {| cc_text := "Thanks" |} bob guide)
    as (c & Hc & _ & _ & _ & _ & Hget & _); [reflexivity|].
  rewrite Hget. vm_compute in Hc. injection Hc as <-. reflexivity.
Defined.

Lemma delete_comment_by_its_author_witness :
  comments (stored (snd (delete_comment true true 1 alice (open_session blog))))
    = [].
Proof.
  destruct (delete_comment_by_its_author true true blog 1 alice nice)
    as (_ & _ & _ & _ & _ & _); [reflexivity|reflexivity|].
  reflexivity.
Defined.

Lemma delete_post_by_its_author_witness :
  posts (stored (snd (delete_post true true 1 alice (open_session blog))))
    = [basics].
Proof.
  destruct (delete_post_by_its_author true true blog 1 alice guide)
    as (_ & _ & _ & _ & _); [reflexivity|reflexivity|].
  reflexivity.
Defined.

(** ** Registering and signing in *)


Lemma find_snoc {A} (f : A -> bool) (l : list A) (x : A) :
  List.find f l = None -> f x = true -> List.find f (l ++ [x]) = Some x.
Proof.
  intros Hl Hx. induction l as [|y l IH]; cbn in *; [by rewrite Hx|].
  destruct (f y); [discriminate|]. by apply IH.
Qed.





(** ** Writing posts *)

Lemma next_id_fresh (ids : list Z) (x : Z) :
  In x ids -> (x < next_id ids)%Z.
Proof.
  unfold next_id. induction ids as [|y ids IH]; [intros []|].
  cbn [fold_right In]. intros [->|H]; [lia|]. specialize (IH H). lia.
Qed.

(** X21.  A new post is stored after the posts that were there, with
    the title and the content sent and the user who sent it as author,
    under a key that no other post has; the handler returns the stored
    row, and reading the post by that key returns it.  Users and
    comments are not touched. *)
Theorem create_post_then_get_post
    (unique_username unique_email : bool)
    (d : tables) (post : PostCreate) (actor : User.t) :
  let r := create_post unique_username unique_email post actor
             (open_session d) in
  exists p,
    fst r = Return p /\
    Post.title p = pc_title post /\ Post.content p = pc_content post /\
    Post.author_id p = User.id actor /\
    posts (stored (snd r)) = posts d ++ [p] /\
    (forall q, In q (posts d) -> Post.id q <> Post.id p) /\
    fst (get_post (Post.id p) (snd r)) =
      Return (p, listing_of_comments (Post.id p) d) /\
    users (stored (snd r)) = users d /\
    comments (stored (snd r)) = comments d.
Proof.
  cbn zeta.
  set (p := {| Post.id := next_id (List.map Post.id (posts d));
               Post.title := pc_title post; Post.content := pc_content post;
               Post.author_id := User.id actor |}).
  assert (Hrun :
    create_post unique_username unique_email post actor (open_session d) =
      (Return p,
       {| stored := {| users := users d; posts := posts d ++ [p];
                       comments := comments d |};
          pending := []; persisted := [PostRow p]; failed := false |}))
    by reflexivity.
  assert (Hfresh : forall q, In q (posts d) -> Post.id q <> Post.id p).
  { intros q Hq. pose proof (next_id_fresh (List.map Post.id (posts d))
                               (Post.id q) (in_map _ _ _ Hq)).
    cbn [p Post.id]. lia. }
  rewrite Hrun. exists p. cbn [fst snd stored users posts comments].
  repeat split; try assumption.
  unfold get_post. session_run. cbn [posts].
  erewrite find_snoc; [reflexivity| |apply Z.eqb_refl].
  destruct (List.find _ (posts d)) as [q|] eqn:Hq; [|reflexivity].
  apply List.find_some in Hq as [Hin Hq]. apply Z.eqb_eq in Hq.
  by apply Hfresh in Hin.
Qed.

Lemma create_post_then_get_post_witness :
  fst (get_post 3
         (snd (create_post true true
                 {| pc_title := "Test Post"; pc_content := "Content here" |}
                 alice (open_session blog)))) =
    Return ({| Post.id := 3; Post.title := "Test Post";
               Post.content := "Content here"; Post.author_id := 1 |}, []).
Proof.
  destruct (create_post_then_get_post true true blog
              {| pc_title := "Test Post"; pc_content := "Content here" |} alice)
    as (p & Hp & _ & _ & _ & _ & _ & Hget & _).
  vm_compute in Hp. injection Hp as <-. exact Hget.
Defined.

(** X22.  An update by the owner touches the post addressed and nothing
    else: every post under another key is what it was, in its place; no
    post changes its key; and the post returned has the key and the
    author of the post addressed. *)
Theorem update_post_touches_one_post
    (unique_username unique_email : bool)
    (d : tables) post_id (upd : PostUpdate) (actor : User.t) p :
  List.find (fun p => (Post.id p =? post_id)%Z) (posts d) = Some p ->
  Post.author_id p = User.id actor ->
  let r := update_post unique_username unique_email post_id upd actor
             (open_session d) in
  (exists f,
      posts (stored (snd r)) = List.map f (posts d) /\
      (forall q, Post.id q <> post_id -> f q = q) /\
      (forall q, Post.id (f q) = Post.id q)) /\
  (exists p', fst r = Return p' /\ Post.id p' = Post.id p /\
              Post.author_id p' = Post.author_id p).
Proof.
  intros Hp Hown r. subst r. split.
  2:{ destruct (update_post_owner unique_username unique_email d post_id upd
                  actor p Hp Hown) as (Hr & _).
      exists (updated p upd). auto. }
  assert (Hid : Post.id p = post_id).
  { apply List.find_some in Hp as [_ Hp']. by apply Z.eqb_eq in Hp'. }
  assert (Hrepl : forall p', Post.id p' = post_id ->
    (forall q, Post.id q <> post_id ->
               (if (Post.id q =? post_id)%Z then p' else q) = q) /\
    (forall q, Post.id (if (Post.id q =? post_id)%Z then p' else q)
               = Post.id q)).
  { intros p' Hp'. split; intros q.
    - intros Hq. apply Z.eqb_neq in Hq. by rewrite Hq.
    - destruct (Z.eqb_spec (Post.id q) post_id); congruence. }
  unfold update_post. session_run. rewrite Hp.
  apply Z.eqb_eq in Hown. rewrite Hown. cbn [negb].
  destruct (str_truthy (pu_title upd)), (str_truthy (pu_content upd));
    unfold set_title, set_content, refresh_post; session_run;
    cbn [apply_change failed pending stored persisted app flush fst snd
         posts users comments Post.id Post.title Post.content
         Post.author_id];
    rewrite Hid.
  all: match goal with
       | |- context [match ?x with Some _ => _ | None => _ end] => destruct x
       end; cbn [snd stored posts].
  1,2: rewrite List.map_map; eexists; (split; [reflexivity|]);
       split; intros q;
       [ intros Hq; apply Z.eqb_neq in Hq; rewrite Hq; by rewrite Hq
       | destruct (Z.eqb_spec (Post.id q) post_id) as [E|E];
         [ cbn [Post.id]; rewrite Z.eqb_refl; cbn [Post.id]; congruence
         | apply Z.eqb_neq in E; by rewrite E ] ].
  1-4: eexists; (split; [reflexivity|]); by apply Hrepl.
  1,2: exists (fun q => q); (split; [by rewrite List.map_id|]); auto.
Qed.

Lemma update_post_touches_one_post_witness :
  posts (stored (snd (update_post true true 2
                        {| pu_title := Some "Python in depth";
                           pu_content := None |} alice (open_session blog))))
    = [guide; {| Post.id := 2; Post.title := "Python in depth";
                 Post.content := "B"; Post.author_id := 1 |}].
Proof.
  destruct (update_post_touches_one_post true true blog 2
              {| pu_title := Some "Python in depth"; pu_content := None |}
              alice basics) as [_ _]; [reflexivity|reflexivity|].
  reflexivity.
Defined.

End BlogMore.

(** * Further properties of the accounts service *)

Module AccountsMore.
Import Orm Accounts AccountsFacts.

(** ** Validation *)

(** X23.  The body of a registration passes validation exactly when its
    three fields are strings, the address passes the check of
    [EmailStr], and the password has at least 8 characters and a digit;
    the validated request then carries the address in its normal form
    and the other two fields as sent.  Every other body is refused, and
    with the one error of validation. *)
Theorem user_create_validates_iff
    (validate_email : string -> option string) (body : json) :
  (forall user,
      UserCreate_validate validate_email body = Return user <->
      exists e,
        str_field body "email" = Some e /\
        validate_email e = Some (uc_email user) /\
        str_field body "username" = Some (uc_username user) /\
        str_field body "password" = Some (uc_password user) /\
        (8 <= String.length (uc_password user))%nat /\
        has_digit (uc_password user) = true) /\
  (forall e, UserCreate_validate validate_email body = Raise e ->
             e = RequestValidationError).
Proof.
  unfold UserCreate_validate. split.
  - intros user. split.
    + destruct (str_field body "email") as [e|]; cbn; [|discriminate].
      destruct (validate_email e) as [e'|] eqn:He; [|discriminate].
      destruct (str_field body "username") as [u|]; [|discriminate].
      destruct (str_field body "password") as [p|]; cbn; [|discriminate].
      unfold validate_password.
      destruct (Nat.ltb_spec (String.length p) 8); [discriminate|].
      destruct (has_digit p) eqn:Hd; [|discriminate]. cbn.
      intros [= <-]. cbn. exists e. auto 10.
    + intros (e & -> & He & -> & -> & Hlen & Hd). cbn. rewrite He.
      rewrite (validate_password_ok _ Hlen Hd). cbn. by destruct user.
  - intros e.
    destruct (_ ≫= validate_email); [|by intros [= <-]].
    destruct (str_field body "username"); [|by intros [= <-]].
    destruct (_ ≫= _); [discriminate|by intros [= <-]].
Qed.

Lemma user_create_validates_witness :
  UserCreate_validate simple_email
    (register_body "erin@example.com" "erin" "passw0rd") =
    Return {| uc_email := "erin@example.com"; uc_username := "erin";
              uc_password := "passw0rd" |}.
Proof.
  apply (proj1 (user_create_validates_iff simple_email
                  (register_body "erin@example.com" "erin" "passw0rd"))).
  exists "erin@example.com". repeat split; cbn; lia.
Defined.

(** ** Registering *)

Lemma existsb_false_forall {A} (f : A -> bool) (l : list A) :
  (forall x, In x l -> f x = false) -> existsb f l = false.
Proof.
  induction l as [|x l IH]; intros H; [reflexivity|]. cbn.
  rewrite (H x) by (by left). apply IH. intros y Hy. apply H. by right.
Qed.

Lemma find_none_all {A} (f : A -> bool) (l : list A) x :
  List.find f l = None -> In x l -> f x = false.
Proof. intros H Hx. by apply (List.find_none f l H x). Qed.

(** X24.  A registration that passes validation, under an address that
    no account has and a name that no uniqueness constraint rules out,
    stores one new account after those that were there, with the address
    in its normal form and the hash of the password in place of the
    password, and returns it.  The same registration sent again is
    refused with 400 and stores nothing. *)
Theorem accounts_registration_then_same_email
    (validate_email : string -> option string)
    (unique_email unique_username : bool) (hash : string -> string)
    (body : json) (rows : list User.t) (user : UserCreate) :
  UserCreate_validate validate_email body = Return user ->
  List.find (fun u => String.eqb (User.email u) (uc_email user)) rows = None ->
  (unique_username = true ->
   List.find (fun u => String.eqb (User.username u) (uc_username user)) rows
     = None) ->
  let r := post_register validate_email unique_email unique_username hash
             body rows in
  exists u,
    fst r = Return u /\ snd r = rows ++ [u] /\
    User.email u = uc_email user /\ User.username u = uc_username user /\
    User.hashed_password u = hash (uc_password user) /\
    post_register validate_email unique_email unique_username hash
                  body (snd r) =
      (Raise (HTTPException 400 "Email already registered"), snd r).
Proof.
  intros Hvalid Hmail Hname r. subst r.
  assert (Hfree : violates_unique unique_email unique_username None rows
                    (uc_email user) (uc_username user) = false).
  { unfold violates_unique. apply existsb_false_forall. intros u Hu.
    cbn [negb andb]. rewrite (find_none_all _ _ u Hmail Hu).
    rewrite andb_false_r. cbn [orb].
    destruct unique_username; [|reflexivity].
    by rewrite (find_none_all _ _ u (Hname eq_refl) Hu). }
  unfold post_register. rewrite Hvalid.
  set (u := {| User.id := Blog.next_id (List.map User.id rows);
               User.email := uc_email user; User.username := uc_username user;
               User.hashed_password := hash (uc_password user) |}).
  assert (Hrun : get_db (register unique_email unique_username hash user) rows
                 = (Return u, rows ++ [u])).
  { unfold register. session_run. rewrite Hmail. session_run.
    cbn [apply_change]. rewrite Hfree. reflexivity. }
  rewrite Hrun. exists u. cbn [fst snd].
  repeat split.
  apply (accounts_register_email_taken unique_email unique_username hash
           (rows ++ [u]) user u).
  apply BlogMore.find_snoc; [exact Hmail|].
  cbn [u User.email]. apply String.eqb_refl.
Qed.

Lemma accounts_registration_then_same_email_witness :
  fst (post_register simple_email true true (fun p => p)
         (register_body "erin@example.com" "erin" "passw0rd")
         (snd (post_register simple_email true true (fun p => p)
                 (register_body "erin@example.com" "erin" "passw0rd")
                 [carol]))) =
    Raise (HTTPException 400 "Email already registered").
Proof.
  destruct (accounts_registration_then_same_email simple_email true true
              (fun p => p)
              (register_body "erin@example.com" "erin" "passw0rd") [carol]
              {| uc_email := "erin@example.com"; uc_username := "erin";
                 uc_password := "passw0rd" |})
    as (u & _ & _ & _ & _ & _ & H);
    [reflexivity|reflexivity|reflexivity|].
  rewrite H. reflexivity.
Defined.

(** ** Changing the address *)

(** X25.  Changing the address of one's account.  An address that
    another account has is refused with 400 and nothing is written.
    One's own present address is not looked up and is not refused.  An
    address that no account has, where no uniqueness constraint stands
    in the way, replaces the address of one's own row and of no other,
    and the handler returns the row as stored. *)
Theorem update_user_me_email
    (unique_email unique_username : bool)
    (rows : list User.t) (upd : UserUpdate) (me : User.t) :
  List.find (fun u => (User.id u =? User.id me)%Z) rows = Some me ->
  (forall new taken,
      uu_email upd = Some new -> new <> "" -> new <> User.email me ->
      List.find (fun u => String.eqb (User.email u) new) rows = Some taken ->
      get_db (update_user_me unique_email unique_username upd me) rows =
        (Raise (HTTPException 400 "Email already in use"), rows)) /\
  (uu_email upd = Some (User.email me) ->
   str_truthy (uu_username upd) = false ->
   get_db (update_user_me unique_email unique_username upd me) rows =
     (Return me, rows)) /\
  (forall new,
      uu_email upd = Some new -> new <> "" -> new <> User.email me ->
      List.find (fun u => String.eqb (User.email u) new) rows = None ->
      str_truthy (uu_username upd) = false ->
      (unique_username = true ->
       forall u, In u rows -> User.id u <> User.id me ->
                 User.username u <> User.username me) ->
      let me' := {| User.id := User.id me; User.email := new;
                    User.username := User.username me;
                    User.hashed_password := User.hashed_password me |} in
      get_db (update_user_me unique_email unique_username upd me) rows =
        (Return me',
         List.map (fun v => if (User.id v =? User.id me)%Z then me' else v)
                  rows)).
Proof.
  intros Hme. split; [|split].
  - intros new taken Hnew Hne Hdiff Htaken.
    unfold update_user_me. rewrite Hnew. cbn [str_truthy default from_option id].
    apply String.eqb_neq in Hne, Hdiff. rewrite Hne, Hdiff. cbn [negb andb].
    session_run. rewrite Htaken. reflexivity.
  - intros Hnew Hname.
    unfold update_user_me. rewrite Hnew, Hname. cbn [str_truthy default from_option id].
    rewrite String.eqb_refl. cbn [negb]. rewrite andb_false_r.
    unfold refresh. session_run. rewrite Hme. reflexivity.
  - intros new Hnew Hne Hdiff Hfree Hname Huniq me'.
    assert (Hok : violates_unique unique_email unique_username
                    (Some (User.id me)) rows new (User.username me) = false).
    { unfold violates_unique. apply existsb_false_forall. intros u Hu.
      rewrite (find_none_all _ _ u Hfree Hu). rewrite andb_false_r.
      cbn [orb].
      destruct (decide (User.id u = User.id me)) as [E|E].
      - rewrite bool_decide_eq_true_2 by congruence. reflexivity.
      - rewrite bool_decide_eq_false_2 by congruence. cbn [negb andb].
        destruct unique_username; [|reflexivity]. cbn [andb].
        apply String.eqb_neq. by apply Huniq. }
    unfold update_user_me. rewrite Hnew, Hname. cbn [str_truthy default from_option id].
    apply String.eqb_neq in Hne, Hdiff. rewrite Hne, Hdiff. cbn [negb andb].
    session_run. rewrite Hfree.
    unfold set_email, refresh. session_run.
    cbn [apply_change User.id User.email User.username]. rewrite Hok.
    cbn [failed stored fst snd]. subst me'.
    erewrite find_replace; [reflexivity|reflexivity|exact Hme].
Qed.

Lemma update_user_me_email_witness :
  get_db (update_user_me true true
            {| uu_username := None; uu_email := Some "carol@example.com" |}
            carol) [carol] = (Return carol, [carol]).
Proof.
  destruct (update_user_me_email true true [carol]
              {| uu_username := None; uu_email := Some "carol@example.com" |}
              carol) as (_ & H & _); [reflexivity|].
  apply H; reflexivity.
Defined.

End AccountsMore.
